(** * The advertisement service (server.py): handlers over a relational store

    The service maps eight HTTP routes onto single-row operations of two
    tables, [users] and [advertisements].  The development embeds

    - the JSON bodies the handlers receive and return,
    - the pydantic (v1) schemas that validate the bodies, with the
      conversions that library applies ([str_validator], [int_validator]),
    - the two tables as the [Column] declarations give them (primary keys,
      unique columns, the foreign key, declared lengths, server default),
    - the handlers [UserView] and [AdvView], one function per HTTP verb.

    Modelling decisions
    - A handler is a function from the store to an [outcome] and the next
      store.  An [outcome] is either a JSON response with its status, or an
      exception that no handler catches (the framework answers 500).
    - The store is a database in which both tables exist.
    - A session is one transaction: a handler that raises leaves both tables
      as they were.  A sequence is not part of the transaction: the number
      it gave is used up also when the row is refused.
    - [bcrypt] is a parameter (class [Bcrypt]); the salt drawn by
      [gensalt] and the clock read by [func.now()] are inputs of the
      handlers that use them.
    - The driver named in the DSN (asyncpg) encodes every parameter by the
      type of its column: it takes a [str] only for a string column, an
      [int] within 32 bits only for an Integer column and a [datetime] only
      for a DateTime column.  The server takes no text that holds U+0000.
      A value that is refused raises an error that is not an
      [IntegrityError].
    - Storing a text in a [String(n)] column keeps it when it has at most
      [n] characters, cuts it to [n] characters when all the characters
      beyond are spaces, and raises otherwise (not an [IntegrityError]).
    - A row that repeats a key or a unique column, or breaks the foreign
      key, is refused with an [IntegrityError]; only the two POST handlers
      catch it.
    - An Integer key is a 32-bit integer: a table holds no row under an id
      outside that range, and the driver refuses such an id.
    - A Python [str] is a [string] whose characters are code points below
      256; a JSON number with a fraction is represented by the two
      observations the validators make of it (its [str()] and its
      [int()]). *)

From Stdlib Require Import Ascii String.
From stdpp Require Import gmap strings list fin_maps pretty.

Set Warnings "-register-all".

Local Open Scope Z_scope.
Local Open Scope string_scope.

(** ** JSON values *)

(** A Python float, seen through [str(f)] and [int(f)] ([None] when [int]
    raises: nan and the infinities). *)
Record pyfloat := { float_str : string; float_int : option Z }.

Inductive json :=
| JNull
| JBool (b : bool)
| JInt (n : Z)
| JFloat (f : pyfloat)
| JStr (s : string)
| JList (l : list json)
| JDict (d : list (string * json)).

(** What [await request.json()] yields: [Parsed j] when the call returned
    the document [j], [Malformed] when the body is not JSON and the call
    raised a [JSONDecodeError]. *)
Inductive body :=
| Malformed
| Parsed (j : json).

(** [d[k]] for an object built by [json.loads]: of several members with the
    same name the last one is kept. *)
Fixpoint dict_get (k : string) (d : list (string * json)) : option json :=
  match d with
  | [] => None
  | (k', v) :: d' =>
      match dict_get k d' with
      | Some w => Some w
      | None => if String.eqb k k' then Some v else None
      end
  end.

(** Does the name [k] occur as a member name anywhere in the document? *)
Fixpoint has_key (k : string) (j : json) : bool :=
  match j with
  | JList l => existsb (has_key k) l
  | JDict d =>
      (fix members (d : list (string * json)) : bool :=
         match d with
         | [] => false
         | (k', v) :: d' => String.eqb k k' || has_key k v || members d'
         end) d
  | _ => false
  end.

(** ** Python conversions used by the validators *)

(** The characters that [int()] skips before and after a number: the
    ASCII blanks U+0009..U+000D and U+0020, and U+0085 and U+00A0, which
    [int()] first replaces by a space.  (U+001C..U+001F are blanks for
    [str.isspace], but [int()] does not skip them.) *)
Definition int_space (c : ascii) : bool :=
  let n := nat_of_ascii c in
  ((9 <=? n) && (n <=? 13) || (n =? 32) || (n =? 133) || (n =? 160))%nat.

Fixpoint lstrip (s : string) : string :=
  match s with
  | String c s' => if int_space c then lstrip s' else s
  | EmptyString => EmptyString
  end.

Fixpoint rstrip (s : string) : string :=
  match s with
  | EmptyString => EmptyString
  | String c s' =>
      match rstrip s' with
      | EmptyString => if int_space c then EmptyString else String c EmptyString
      | r => String c r
      end
  end.

Definition strip (s : string) : string := rstrip (lstrip s).

Definition digit (c : ascii) : option Z :=
  let n := nat_of_ascii c in
  if ((48 <=? n) && (n <=? 57))%nat then Some (Z.of_nat n - 48) else None.

(** Decimal digits with single underscores between them; [acc] is the value
    read so far and [after_digit] tells whether the last character was a
    digit. *)
Fixpoint digits (acc : Z) (after_digit : bool) (s : string) : option Z :=
  match s with
  | EmptyString => if after_digit then Some acc else None
  | String c s' =>
      match digit c with
      | Some d => digits (10 * acc + d) true s'
      | None =>
          if Ascii.eqb c "_"%char && after_digit
          then match s' with
               | EmptyString => None
               | String c' _ =>
                   match digit c' with
                   | Some _ => digits acc false s'
                   | None => None
                   end
               end
          else None
      end
  end.

(** The number of digits in [s]. *)
Fixpoint count_digits (s : string) : nat :=
  match s with
  | EmptyString => 0
  | String c s' =>
      match digit c with
      | Some _ => S (count_digits s')
      | None => count_digits s'
      end
  end.

(** [sys.get_int_max_str_digits()]: [int()] refuses a text with more
    digits. *)
Definition int_max_str_digits : nat := 4300.

(** The digits after the sign. *)
Definition unsigned (s : string) : option Z :=
  if (count_digits s <=? int_max_str_digits)%nat then digits 0 false s
  else None.

(** [int(s)] for a [str] in base 10; [None] stands for [ValueError]. *)
Definition int_of_str (s : string) : option Z :=
  match strip s with
  | String "-" r => Z.opp <$> unsigned r
  | String "+" r => unsigned r
  | r => unsigned r
  end.

(** [str(n)] for an [int]. *)
Definition str_of_int (n : Z) : string := pretty n.

(** ** pydantic: validators and errors *)

Inductive PydanticError :=
| MissingError
| NoneIsNotAllowedError
| StrError
| IntegerError.

Definition error_msg (e : PydanticError) : string :=
  match e with
  | MissingError => "field required"
  | NoneIsNotAllowedError => "none is not an allowed value"
  | StrError => "str type expected"
  | IntegerError => "value is not a valid integer"
  end.

Definition error_type (e : PydanticError) : string :=
  match e with
  | MissingError => "value_error.missing"
  | NoneIsNotAllowedError => "type_error.none.not_allowed"
  | StrError => "type_error.str"
  | IntegerError => "type_error.integer"
  end.

(** One entry of [ValidationError.errors()]: the field and what is wrong. *)
Record ErrorWrapper := { loc : string; exc : PydanticError }.

Definition error_dict (e : ErrorWrapper) : json :=
  JDict [("loc", JList [JStr (loc e)]);
         ("msg", JStr (error_msg (exc e)));
         ("type", JStr (error_type (exc e)))].

(** [str] fields take a [str] as it is and the [str()] of a number ([bool]
    is an [int] in Python); anything else is a [StrError]. *)
Definition str_validator (v : json) : string + PydanticError :=
  match v with
  | JStr s => inl s
  | JInt n => inl (str_of_int n)
  | JBool b => inl (if b then "True" else "False")
  | JFloat f => inl (float_str f)
  | _ => inr StrError
  end.

(** [max_str_int] of pydantic: a [str] with more characters is refused
    before [int()] is tried. *)
Definition max_str_int : nat := 4300.

(** [int] fields take an [int] as it is and otherwise whatever [int(v)]
    accepts; [TypeError], [ValueError] and [OverflowError] become an
    [IntegerError]. *)
Definition int_validator (v : json) : Z + PydanticError :=
  match v with
  | JInt n => inl n
  | JBool b => inl (if b then 1 else 0)
  | JFloat f => match float_int f with Some n => inl n | None => inr IntegerError end
  | JStr s =>
      if (max_str_int <? String.length s)%nat then inr IntegerError
      else match int_of_str s with Some n => inl n | None => inr IntegerError end
  | _ => inr IntegerError
  end.

(** A required field: absent is [MissingError], [null] is not allowed. *)
Definition required {A} (validator : json → A + PydanticError)
    (name : string) (d : list (string * json)) : A + ErrorWrapper :=
  match dict_get name d with
  | None => inr {| loc := name; exc := MissingError |}
  | Some JNull => inr {| loc := name; exc := NoneIsNotAllowedError |}
  | Some v =>
      match validator v with
      | inl a => inl a
      | inr e => inr {| loc := name; exc := e |}
      end
  end.

(** An [Optional] field: absent and [null] both give [None]. *)
Definition optional {A} (validator : json → A + PydanticError)
    (name : string) (d : list (string * json)) : option A + ErrorWrapper :=
  match dict_get name d with
  | None | Some JNull => inl None
  | Some v =>
      match validator v with
      | inl a => inl (Some a)
      | inr e => inr {| loc := name; exc := e |}
      end
  end.

Definition errors_of {A} (r : A + ErrorWrapper) : list ErrorWrapper :=
  match r with
  | inl _ => []
  | inr e => [e]
  end.

(** ** The four schemas *)

Record CreateUserSchema :=
  { cu_username : string; cu_email : string; cu_password : string }.

Record PatchUserSchema :=
  { pu_username : option string; pu_email : option string;
    pu_password : option string }.

Record CreateAdvertisementSchema :=
  { ca_header : string; ca_description : string; ca_owner : Z }.

Record PatchAdvertisementSchema :=
  { pa_header : option string; pa_description : option string;
    pa_owner : option string; pa_registration_time : option string }.

(** What calling a schema with the members of the body as keyword
    arguments gives: the model, the [ValidationError] with its list of
    errors, or the [TypeError] of the call itself. *)
Inductive instantiated (A : Type) :=
| Model (a : A)
| ValidationError (errs : list ErrorWrapper)
| MultipleValues.

Arguments Model {A} a.
Arguments ValidationError {A} errs.
Arguments MultipleValues {A}.

(** The first parameter of [BaseModel.__init__] is named
    [__pydantic_self__]: a body with a member of that name gives the
    parameter a second value. *)
Definition reserved (d : list (string * json)) : bool :=
  match dict_get "__pydantic_self__" d with
  | Some _ => true
  | None => false
  end.

(** The call of a schema: the keyword arguments are bound first, then the
    fields are validated. *)
Definition instantiate {A} (d : list (string * json))
    (validated : A + list ErrorWrapper) : instantiated A :=
  if reserved d then MultipleValues
  else match validated with
       | inl a => Model a
       | inr errs => ValidationError errs
       end.

(** Validation of the fields: every field is validated, the errors are
    collected in field order, and members of [data] that are not fields
    are ignored. *)
Definition fields_CreateUserSchema (d : list (string * json))
  : CreateUserSchema + list ErrorWrapper :=
  let u := required str_validator "username" d in
  let e := required str_validator "email" d in
  let p := required str_validator "password" d in
  match u, e, p with
  | inl u', inl e', inl p' =>
      inl {| cu_username := u'; cu_email := e'; cu_password := p' |}
  | _, _, _ => inr (errors_of u ++ errors_of e ++ errors_of p)%list
  end.

Definition fields_PatchUserSchema (d : list (string * json))
  : PatchUserSchema + list ErrorWrapper :=
  let u := optional str_validator "username" d in
  let e := optional str_validator "email" d in
  let p := optional str_validator "password" d in
  match u, e, p with
  | inl u', inl e', inl p' =>
      inl {| pu_username := u'; pu_email := e'; pu_password := p' |}
  | _, _, _ => inr (errors_of u ++ errors_of e ++ errors_of p)%list
  end.

Definition fields_CreateAdvertisementSchema (d : list (string * json))
  : CreateAdvertisementSchema + list ErrorWrapper :=
  let h := required str_validator "header" d in
  let t := required str_validator "description" d in
  let o := required int_validator "owner" d in
  match h, t, o with
  | inl h', inl t', inl o' =>
      inl {| ca_header := h'; ca_description := t'; ca_owner := o' |}
  | _, _, _ => inr (errors_of h ++ errors_of t ++ errors_of o)%list
  end.

Definition fields_PatchAdvertisementSchema (d : list (string * json))
  : PatchAdvertisementSchema + list ErrorWrapper :=
  let h := optional str_validator "header" d in
  let t := optional str_validator "description" d in
  let o := optional str_validator "owner" d in
  let r := optional str_validator "registration_time" d in
  match h, t, o, r with
  | inl h', inl t', inl o', inl r' =>
      inl {| pa_header := h'; pa_description := t'; pa_owner := o';
             pa_registration_time := r' |}
  | _, _, _, _ => inr (errors_of h ++ errors_of t ++ errors_of o ++ errors_of r)%list
  end.

(** [CreateUserSchema] and the other three schemas, called with the
    members of the body. *)
Definition validate_CreateUserSchema (d : list (string * json))
  : instantiated CreateUserSchema :=
  instantiate d (fields_CreateUserSchema d).

Definition validate_PatchUserSchema (d : list (string * json))
  : instantiated PatchUserSchema :=
  instantiate d (fields_PatchUserSchema d).

Definition validate_CreateAdvertisementSchema (d : list (string * json))
  : instantiated CreateAdvertisementSchema :=
  instantiate d (fields_CreateAdvertisementSchema d).

Definition validate_PatchAdvertisementSchema (d : list (string * json))
  : instantiated PatchAdvertisementSchema :=
  instantiate d (fields_PatchAdvertisementSchema d).

(** ** Timestamps *)

(** A naive [datetime], as a DateTime column without time zone yields it. *)
Record datetime :=
  { year : Z; month : Z; day : Z;
    hour : Z; minute : Z; second : Z; microsecond : Z }.

(** [str(n).zfill(w)] *)
Definition zfill (w : nat) (n : Z) : string :=
  let s := str_of_int n in
  String.concat "" (replicate (w - String.length s)%nat "0") ++ s.

(** [datetime.isoformat()]: the fraction is printed only when it is not 0. *)
Definition isoformat (t : datetime) : string :=
  zfill 4 (year t) ++ "-" ++ zfill 2 (month t) ++ "-" ++ zfill 2 (day t)
  ++ "T" ++ zfill 2 (hour t) ++ ":" ++ zfill 2 (minute t) ++ ":"
  ++ zfill 2 (second t)
  ++ (if (microsecond t =? 0)%Z then "" else "." ++ zfill 6 (microsecond t)).

(** ** The tables *)

(** The range of an Integer column. *)
Definition in_int32 (n : Z) : bool :=
  ((-2147483648 <=? n) && (n <=? 2147483647))%Z.

(** A table with an Integer key: the rows by their id.  The key is a
    32-bit integer, so there is no row under an id outside that range. *)
Record table (A : Type) := Table { rows : gmap Z A }.

Arguments Table {A} rows.
Arguments rows {A} t.

#[global] Instance table_lookup {A} : Lookup Z A (table A) :=
  λ i t, if in_int32 i then rows t !! i else None.

#[global] Instance table_insert {A} : Insert Z A (table A) :=
  λ i r t, Table (<[i := r]> (rows t)).

#[global] Instance table_delete {A} : Delete Z (table A) :=
  λ i t, Table (delete i (rows t)).

#[global] Instance table_empty {A} : Empty (table A) := Table ∅.

#[global] Instance table_singleton {A} : SingletonM Z A (table A) :=
  λ i r, Table {[i := r]}.

#[global] Instance table_map_Forall_dec {A} (P : Z → A → Prop)
    `{∀ i x, Decision (P i x)} (t : table A) : Decision (map_Forall P t).
Proof.
  refine (cast_if
            (decide (map_Forall (λ i x, in_int32 i = true → P i x) (rows t))));
    unfold map_Forall, lookup, table_lookup in *.
  - intros i x Hi. destruct (in_int32 i) eqn:E; [auto | discriminate].
  - intros Hall. apply n. intros i x Hi Hr. apply Hall. now rewrite Hr.
Defined.

(** A row of [users]; [id] is the key of the table.  [password] is the only
    nullable column. *)
Record User :=
  { username : string; email : string; password : option string }.

(** A row of [advertisements]; [registration_time] and [owner] are
    nullable. *)
Record Advertisement :=
  { header : string; description : string;
    registration_time : option datetime; owner : option Z }.

(** The store: both tables and the two sequences that number their rows. *)
Record db :=
  { users : table User;
    advertisements : table Advertisement;
    users_id_seq : Z;
    advertisements_id_seq : Z }.

Definition set_users (st : db) (m : table User) : db :=
  {| users := m; advertisements := advertisements st;
     users_id_seq := users_id_seq st;
     advertisements_id_seq := advertisements_id_seq st |}.

Definition set_advertisements (st : db) (m : table Advertisement) : db :=
  {| users := users st; advertisements := m;
     users_id_seq := users_id_seq st;
     advertisements_id_seq := advertisements_id_seq st |}.

Definition next_user_id (st : db) : db :=
  {| users := users st; advertisements := advertisements st;
     users_id_seq := users_id_seq st + 1;
     advertisements_id_seq := advertisements_id_seq st |}.

Definition next_advertisement_id (st : db) : db :=
  {| users := users st; advertisements := advertisements st;
     users_id_seq := users_id_seq st;
     advertisements_id_seq := advertisements_id_seq st + 1 |}.

(** ** Outcomes of a handler *)

Inductive exn :=
| JSONDecodeError
| TypeError
| ValueError
| AttributeError
| IntegrityError
| DBAPIError.

Inductive outcome :=
| json_response (status : Z) (data : json)
| raised (e : exn).

(** [HTTPError]: the text of the response is [json.dumps({"error": message})]. *)
Definition HTTPError (status_code : Z) (message : json) : outcome :=
  json_response status_code (JDict [("error", message)]).

Definition BadRequest : json → outcome := HTTPError 400.
Definition NotFound : json → outcome := HTTPError 404.

Definition success : outcome :=
  json_response 200 (JDict [("status", JStr "success")]).

(** ** The values an ORM object holds, and how they reach a column *)

Inductive pyval :=
| PNone
| PInt (n : Z)
| PStr (s : string)
| PDateTime (t : datetime).

#[global] Instance datetime_eq_dec : EqDecision datetime.
Proof. solve_decision. Defined.
#[global] Instance pyval_eq_dec : EqDecision pyval.
Proof. solve_decision. Defined.

Definition of_str (v : option string) : pyval :=
  match v with Some s => PStr s | None => PNone end.
Definition of_int (v : option Z) : pyval :=
  match v with Some n => PInt n | None => PNone end.
Definition of_datetime (v : option datetime) : pyval :=
  match v with Some t => PDateTime t | None => PNone end.

(** Does the text hold U+0000? *)
Fixpoint has_nul (s : string) : bool :=
  match s with
  | EmptyString => false
  | String c s' => (nat_of_ascii c =? 0)%nat || has_nul s'
  end.

Fixpoint all_spaces (s : string) : bool :=
  match s with
  | EmptyString => true
  | String c s' => Ascii.eqb c " "%char && all_spaces s'
  end.

(** The parameters of a statement.  [None] when the value is refused,
    [Some None] for NULL.  A text parameter is a [str] without U+0000, an
    Integer parameter an [int] of 32 bits, a DateTime parameter a
    [datetime]. *)
Definition param_String (v : pyval) : option (option string) :=
  match v with
  | PNone => Some None
  | PStr s => if has_nul s then None else Some (Some s)
  | _ => None
  end.

Definition bind_Integer (v : pyval) : option (option Z) :=
  match v with
  | PNone => Some None
  | PInt n => if in_int32 n then Some (Some n) else None
  | _ => None
  end.

Definition bind_DateTime (v : pyval) : option (option datetime) :=
  match v with
  | PNone => Some None
  | PDateTime t => Some (Some t)
  | _ => None
  end.

(** Storing the text [s] in a column of [n] characters: [s] when it is not
    longer, its first [n] characters when the rest is spaces, and [None]
    (an error) otherwise. *)
Fixpoint varchar_cut (n : nat) (s : string) {struct s} : option string :=
  match s with
  | EmptyString => Some EmptyString
  | String c s' =>
      match n with
      | O => if all_spaces s then Some EmptyString else None
      | S n' => String c <$> varchar_cut n' s'
      end
  end.

(** A [String(n)] column ([Some n]) and a [String] column without length
    ([None]). *)
Definition varchar (n : option nat) (s : string) : option string :=
  match n with
  | Some n' => varchar_cut n' s
  | None => Some s
  end.

(** What a column stores for a parameter that the server took. *)
Definition assign_String (n : option nat) (v : option string)
  : option (option string) :=
  match v with
  | None => Some None
  | Some s => Some <$> varchar n s
  end.

(** A value bound to a string column and stored there. *)
Definition bind_String (n : option nat) (v : pyval) : option (option string) :=
  match param_String v with
  | Some p => assign_String n p
  | None => None
  end.

(** An UPDATE carries only the attributes whose value differs from the one
    loaded: an attribute that was not changed keeps the stored value and is
    not bound again. *)
Definition column {A} (to_py : option A → pyval)
    (bind : pyval → option (option A)) (loaded : option A) (attr : pyval)
  : option (option A) :=
  if decide (attr = to_py loaded) then Some loaded else bind attr.

(** ** bcrypt *)

(** [hashpw password salt], [None] when the library raises.  A bcrypt hash
    is 60 characters long, all of them printable. *)
Class Bcrypt :=
  { hashpw : string → string → option string;
    hashpw_length : ∀ pw salt h,
      hashpw pw salt = Some h → String.length h = 60%nat;
    hashpw_text : ∀ pw salt h,
      hashpw pw salt = Some h → has_nul h = false }.

(** ** ORM objects *)

(** The attributes of a mapped object, by name. *)
Definition instance := string → pyval.

Definition setattr (o : instance) (name : string) (value : pyval) : instance :=
  λ n, if String.eqb n name then value else o n.

Definition load_User (r : User) : instance :=
  λ n, if String.eqb n "username" then PStr (username r)
       else if String.eqb n "email" then PStr (email r)
       else if String.eqb n "password" then of_str (password r)
       else PNone.

Definition load_Advertisement (r : Advertisement) : instance :=
  λ n, if String.eqb n "header" then PStr (header r)
       else if String.eqb n "description" then PStr (description r)
       else if String.eqb n "registration_time" then of_datetime (registration_time r)
       else if String.eqb n "owner" then of_int (owner r)
       else PNone.

(** [.dict()] of the two patch schemas, in field order. *)
Definition dict_PatchUserSchema (p : PatchUserSchema)
  : list (string * option string) :=
  [("username", pu_username p); ("email", pu_email p);
   ("password", pu_password p)].

Definition dict_PatchAdvertisementSchema (p : PatchAdvertisementSchema)
  : list (string * option string) :=
  [("header", pa_header p); ("description", pa_description p);
   ("owner", pa_owner p); ("registration_time", pa_registration_time p)].

(** [if value:] for an [Optional[str]]: [None] and the empty string are
    false. *)
Definition truthy (value : option string) : bool :=
  match value with
  | Some (String _ _) => true
  | _ => false
  end.

(** The loop of both [patch] handlers:
    [for column, value in items: if value: setattr(o, column, value)]. *)
Definition set_items (items : list (string * option string)) (o : instance)
  : instance :=
  foldl (λ o item, if truthy item.2 then setattr o item.1 (of_str item.2) else o)
        o items.

(** ** Statements of a session *)

(** No row other than [except] has this user name (this email). *)
Definition username_free (m : table User) (except : option Z) (u : string) : Prop :=
  map_Forall (λ i r, Some i = except ∨ username r ≠ u) m.

Definition email_free (m : table User) (except : option Z) (e : string) : Prop :=
  map_Forall (λ i r, Some i = except ∨ email r ≠ e) m.

(** No advertisement names the user [user_id] as its owner. *)
Definition unreferenced (m : table Advertisement) (user_id : Z) : Prop :=
  map_Forall (λ _ a, owner a ≠ Some user_id) m.

(** The foreign key of [owner]: NULL, or the id of a user. *)
Definition owner_ok (m : table User) (o : option Z) : Prop :=
  match o with
  | None => True
  | Some i => is_Some (m !! i)
  end.

#[global] Instance owner_ok_dec m o : Decision (owner_ok m o).
Proof. destruct o; simpl; apply _. Defined.

(** [session.add(new_user); commit()].  The parameters are texts; the
    sequence gives the id (an Integer key has no number beyond 32 bits);
    the texts are stored in their columns; the key and both unique columns
    are checked.  Once the sequence has given a number it keeps it, also
    when the row is refused. *)
Definition insert_user (st : db) (r : User) : (Z + exn) * db :=
  match param_String (PStr (username r)),
        param_String (PStr (email r)),
        param_String (of_str (password r)) with
  | Some u, Some e, Some p =>
      let new_id := users_id_seq st in
      if in_int32 new_id then
        match assign_String (Some 60%nat) u,
              assign_String (Some 100%nat) e,
              assign_String (Some 100%nat) p with
        | Some (Some u'), Some (Some e'), Some p' =>
            if decide (users st !! new_id = None
                       ∧ username_free (users st) None u'
                       ∧ email_free (users st) None e')
            then (inl new_id,
                  set_users (next_user_id st)
                    (<[new_id := {| username := u'; email := e';
                                    password := p' |}]> (users st)))
            else (inr IntegrityError, next_user_id st)
        | Some _, Some _, Some _ => (inr IntegrityError, next_user_id st)
        | _, _, _ => (inr DBAPIError, next_user_id st)
        end
      else (inr DBAPIError, st)
  | _, _, _ => (inr DBAPIError, st)
  end.

(** [session.add(new_adv); commit()]; [now] is the value of the server
    default [func.now()]. *)
Definition insert_advertisement (now : datetime) (st : db)
    (v : CreateAdvertisementSchema) : (Z + exn) * db :=
  match param_String (PStr (ca_header v)),
        param_String (PStr (ca_description v)),
        bind_Integer (PInt (ca_owner v)) with
  | Some h, Some t, Some o =>
      let new_id := advertisements_id_seq st in
      if in_int32 new_id then
        match assign_String (Some 64%nat) h, assign_String None t with
        | Some (Some h'), Some (Some t') =>
            if decide (advertisements st !! new_id = None
                       ∧ owner_ok (users st) o)
            then (inl new_id,
                  set_advertisements (next_advertisement_id st)
                    (<[new_id := {| header := h'; description := t';
                                    registration_time := Some now;
                                    owner := o |}]>
                       (advertisements st)))
            else (inr IntegrityError, next_advertisement_id st)
        | Some _, Some _ => (inr IntegrityError, next_advertisement_id st)
        | _, _ => (inr DBAPIError, next_advertisement_id st)
        end
      else (inr DBAPIError, st)
  | _, _, _ => (inr DBAPIError, st)
  end.

(** [session.add(user); commit()] for a loaded user whose attributes are
    now [o]. *)
Definition update_user (st : db) (user_id : Z) (old : User) (o : instance)
  : option exn * db :=
  match column of_str (bind_String (Some 60%nat)) (Some (username old)) (o "username"),
        column of_str (bind_String (Some 100%nat)) (Some (email old)) (o "email"),
        column of_str (bind_String (Some 100%nat)) (password old) (o "password") with
  | Some (Some u), Some (Some e), Some p =>
      if decide ((u = username old ∨ username_free (users st) (Some user_id) u)
                 ∧ (e = email old ∨ email_free (users st) (Some user_id) e))
      then (None,
            set_users st
              (<[user_id := {| username := u; email := e; password := p |}]>
                 (users st)))
      else (Some IntegrityError, st)
  | Some _, Some _, Some _ => (Some IntegrityError, st)
  | _, _, _ => (Some DBAPIError, st)
  end.

(** [session.add(adv); commit()] for a loaded advertisement. *)
Definition update_advertisement (st : db) (adv_id : Z) (old : Advertisement)
    (o : instance) : option exn * db :=
  match column of_str (bind_String (Some 64%nat)) (Some (header old)) (o "header"),
        column of_str (bind_String None) (Some (description old)) (o "description"),
        column of_datetime bind_DateTime (registration_time old) (o "registration_time"),
        column of_int bind_Integer (owner old) (o "owner") with
  | Some (Some h), Some (Some t), Some r, Some w =>
      if decide (w = owner old ∨ owner_ok (users st) w)
      then (None,
            set_advertisements st
              (<[adv_id := {| header := h; description := t;
                              registration_time := r; owner := w |}]>
                 (advertisements st)))
      else (Some IntegrityError, st)
  | Some _, Some _, Some _, Some _ => (Some IntegrityError, st)
  | _, _, _, _ => (Some DBAPIError, st)
  end.

(** [session.delete(user); commit()]: a user that an advertisement refers
    to cannot be deleted. *)
Definition delete_user (st : db) (user_id : Z) : option exn * db :=
  if decide (unreferenced (advertisements st) user_id)
  then (None, set_users st (delete user_id (users st)))
  else (Some IntegrityError, st).

Definition delete_advertisement (st : db) (adv_id : Z) : option exn * db :=
  (None, set_advertisements st (delete adv_id (advertisements st))).

(** ** The handlers *)

(** [get_item]: the id is a parameter of the SELECT that [session.get]
    sends, an Integer; then the row, or the 404 that names the class. *)
Definition get_item {A} (cls : table A) (item_id : Z) (cls_name : string)
  : A + outcome :=
  match bind_Integer (PInt item_id) with
  | None => inr (raised DBAPIError)
  | Some _ =>
      match cls !! item_id with
      | None => inr (NotFound (JStr (cls_name ++ " does not exist")))
      | Some r => inl r
      end
  end.

Definition errors (errs : list ErrorWrapper) : json :=
  JList (error_dict <$> errs).

Module AdvView.

Definition get (st : db) (adv_id : Z) : outcome * db :=
  match get_item (advertisements st) adv_id "Advertisement" with
  | inr not_found => (not_found, st)
  | inl adv =>
      match registration_time adv with
      | None => (raised AttributeError, st)
      | Some t =>
          (json_response 200
             (JDict [("header", JStr (header adv));
                     ("registration_time", JStr (isoformat t));
                     ("description", JStr (description adv));
                     ("owner", match owner adv with
                               | Some i => JInt i
                               | None => JNull
                               end)]), st)
      end
  end.

Definition post (now : datetime) (st : db) (adv_data : body) : outcome * db :=
  match adv_data with
  | Malformed => (raised JSONDecodeError, st)
  | Parsed (JDict d) =>
      match validate_CreateAdvertisementSchema d with
      | MultipleValues => (raised TypeError, st)
      | ValidationError errs => (BadRequest (errors errs), st)
      | Model json_data_validated =>
          match insert_advertisement now st json_data_validated with
          | (inl new_id, st') => (json_response 200 (JDict [("id", JInt new_id)]), st')
          | (inr IntegrityError, st') =>
              (BadRequest (JStr "Advertisement already exists"), st')
          | (inr e, st') => (raised e, st')
          end
      end
  | Parsed _ => (raised TypeError, st)
  end.

Definition patch (st : db) (adv_id : Z) (adv_data : body) : outcome * db :=
  match adv_data with
  | Malformed => (raised JSONDecodeError, st)
  | Parsed (JDict d) =>
      match validate_PatchAdvertisementSchema d with
      | MultipleValues => (raised TypeError, st)
      | ValidationError errs => (BadRequest (errors errs), st)
      | Model json_data_validated =>
          match get_item (advertisements st) adv_id "Advertisement" with
          | inr not_found => (not_found, st)
          | inl adv =>
              let o := set_items (dict_PatchAdvertisementSchema json_data_validated)
                                 (load_Advertisement adv) in
              match update_advertisement st adv_id adv o with
              | (None, st') => (success, st')
              | (Some e, st') => (raised e, st')
              end
          end
      end
  | Parsed _ => (raised TypeError, st)
  end.

Definition delete (st : db) (adv_id : Z) : outcome * db :=
  match get_item (advertisements st) adv_id "Advertisement" with
  | inr not_found => (not_found, st)
  | inl adv =>
      match delete_advertisement st adv_id with
      | (None, st') => (success, st')
      | (Some e, st') => (raised e, st')
      end
  end.

End AdvView.

Module UserView.

Definition get (st : db) (user_id : Z) : outcome * db :=
  match get_item (users st) user_id "User" with
  | inr not_found => (not_found, st)
  | inl user =>
      (json_response 200
         (JDict [("username", JStr (username user));
                 ("email", JStr (email user))]), st)
  end.

Definition post `{Bcrypt} (salt : string) (st : db) (user_data : body)
  : outcome * db :=
  match user_data with
  | Malformed => (raised JSONDecodeError, st)
  | Parsed (JDict d) =>
      match validate_CreateUserSchema d with
      | MultipleValues => (raised TypeError, st)
      | ValidationError errs => (BadRequest (errors errs), st)
      | Model json_data_validated =>
          match hashpw (cu_password json_data_validated) salt with
          | None => (raised ValueError, st)
          | Some hashed =>
              let new_user :=
                {| username := cu_username json_data_validated;
                   email := cu_email json_data_validated;
                   password := Some hashed |} in
              match insert_user st new_user with
              | (inl new_id, st') =>
                  (json_response 200 (JDict [("id", JInt new_id)]), st')
              | (inr IntegrityError, st') =>
                  (BadRequest (JStr "user already exists"), st')
              | (inr e, st') => (raised e, st')
              end
          end
      end
  | Parsed _ => (raised TypeError, st)
  end.

Definition patch (st : db) (user_id : Z) (user_data : body) : outcome * db :=
  match user_data with
  | Malformed => (raised JSONDecodeError, st)
  | Parsed (JDict d) =>
      match validate_PatchUserSchema d with
      | MultipleValues => (raised TypeError, st)
      | ValidationError errs => (BadRequest (errors errs), st)
      | Model json_data_validated =>
          match get_item (users st) user_id "User" with
          | inr not_found => (not_found, st)
          | inl user =>
              let o := set_items (dict_PatchUserSchema json_data_validated)
                                 (load_User user) in
              match update_user st user_id user o with
              | (None, st') => (success, st')
              | (Some e, st') => (raised e, st')
              end
          end
      end
  | Parsed _ => (raised TypeError, st)
  end.

Definition delete (st : db) (user_id : Z) : outcome * db :=
  match get_item (users st) user_id "User" with
  | inr not_found => (not_found, st)
  | inl user =>
      match delete_user st user_id with
      | (None, st') => (success, st')
      | (Some e, st') => (raised e, st')
      end
  end.

End UserView.

(** ** The routes *)

(** A request as the router dispatches it, with the salt and the clock
    reading that its handler will draw. *)
Inductive request :=
| GET_advertisement (adv_id : Z)
| PATCH_advertisement (adv_id : Z) (data : body)
| DELETE_advertisement (adv_id : Z)
| POST_advertisement (now : datetime) (data : body)
| GET_user (user_id : Z)
| PATCH_user (user_id : Z) (data : body)
| DELETE_user (user_id : Z)
| POST_user (salt : string) (data : body).

Definition app `{Bcrypt} (req : request) (st : db) : outcome * db :=
  match req with
  | GET_advertisement i => AdvView.get st i
  | PATCH_advertisement i b => AdvView.patch st i b
  | DELETE_advertisement i => AdvView.delete st i
  | POST_advertisement now b => AdvView.post now st b
  | GET_user i => UserView.get st i
  | PATCH_user i b => UserView.patch st i b
  | DELETE_user i => UserView.delete st i
  | POST_user salt b => UserView.post salt st b
  end.

(** Requests handled one after the other, each in a session of its own. *)
Definition run `{Bcrypt} (reqs : list request) (st : db) : db :=
  foldl (λ st req, (app req st).2) st reqs.

(** ** Payloads *)

(** A create payload for a user: an object whose three required members
    are strings.  Other members may be present. *)
Definition user_payload (d : list (string * json)) (u e p : string) : Prop :=
  dict_get "username" d = Some (JStr u)
  ∧ dict_get "email" d = Some (JStr e)
  ∧ dict_get "password" d = Some (JStr p).

(** A create payload for an advertisement: two strings and an integer. *)
Definition advertisement_payload (d : list (string * json))
    (h t : string) (o : Z) : Prop :=
  dict_get "header" d = Some (JStr h)
  ∧ dict_get "description" d = Some (JStr t)
  ∧ dict_get "owner" d = Some (JInt o).

(** The value of a field after a patch that carries [value] for it. *)
Definition patched (old : string) (value : option string) : string :=
  match value with
  | Some (String c s) => String c s
  | _ => old
  end.

Definition patched_opt (old : option string) (value : option string)
  : option string :=
  match value with
  | Some (String c s) => Some (String c s)
  | _ => old
  end.

(** ** Stores and payloads of the examples *)

(** An instance of [Bcrypt] for the examples: every hash is the same 60
    characters.  The theorems hold for every instance. *)
Definition example_hash : string :=
  "$2b$12$abcdefghijklmnopqrstuvABCDEFGHIJKLMNOPQRSTUVWXYZ01234".

#[local] Program Instance example_bcrypt : Bcrypt :=
  {| hashpw _ _ := Some example_hash |}.
Next Obligation. intros ? ? ? [= <-]. reflexivity. Qed.
Next Obligation. intros ? ? ? [= <-]. reflexivity. Qed.

Definition empty_db : db :=
  {| users := ∅; advertisements := ∅;
     users_id_seq := 1; advertisements_id_seq := 1 |}.

(** The user of client.py and the store that its POST leaves behind. *)
Definition user3 : list (string * json) :=
  [("username", JStr "user3"); ("email", JStr "user3@mail.com");
   ("password", JStr "12345")].

Definition db_user3 : db :=
  {| users := {[1 := {| username := "user3"; email := "user3@mail.com";
                        password := Some example_hash |}]};
     advertisements := ∅;
     users_id_seq := 2; advertisements_id_seq := 1 |}.

(** An advertisement of that user, the clock of its POST and the store
    afterwards. *)
Definition opel : list (string * json) :=
  [("header", JStr "Opel Astra J"); ("description", JStr "as new");
   ("owner", JInt 1)].

Definition noon : datetime :=
  {| year := 2023; month := 4; day := 9;
     hour := 12; minute := 0; second := 0; microsecond := 0 |}.

Definition db_opel : db :=
  {| users := users db_user3;
     advertisements :=
       {[1 := {| header := "Opel Astra J"; description := "as new";
                 registration_time := Some noon; owner := Some 1 |}]};
     users_id_seq := 2; advertisements_id_seq := 2 |}.


(** The user of client.py again, with members the schema does not
    declare. *)
Definition user3_extra : list (string * json) :=
  [("id", JInt 99); ("username", JStr "user3"); ("is_admin", JBool true);
   ("email", JStr "user3@mail.com"); ("password", JStr "12345");
   ("registration_time", JStr "1999-01-01T00:00:00")].

(** [n] spaces. *)
Definition spaces (n : nat) : string := String.concat "" (replicate n " ").

(** The same user under a name of 61 characters, the last 56 of them
    spaces, and the store that this POST leaves behind: the name has the
    60 characters of its column. *)
Definition user3_padded : list (string * json) :=
  [("username", JStr ("user3" ++ spaces 56)); ("email", JStr "user3@mail.com");
   ("password", JStr "12345")].

Definition db_user3_padded : db :=
  {| users := {[1 := {| username := "user3" ++ spaces 55;
                        email := "user3@mail.com";
                        password := Some example_hash |}]};
     advertisements := ∅;
     users_id_seq := 2; advertisements_id_seq := 1 |}.

(** An email of 101 characters. *)
Definition long_email : string :=
  String.concat "" (replicate 92 "a") ++ "@mail.com".

(** ** Predicates of the statements *)




(** The row after a patch: the fields given a non-empty value are set,
    the others are as before.  An advertisement keeps its owner and its
    registration time. *)
Definition patched_User (user : User) (p : PatchUserSchema) : User :=
  {| username := patched (username user) (pu_username p);
     email := patched (email user) (pu_email p);
     password := patched_opt (password user) (pu_password p) |}.

Definition patched_Advertisement (adv : Advertisement)
    (p : PatchAdvertisementSchema) : Advertisement :=
  {| header := patched (header adv) (pa_header p);
     description := patched (description adv) (pa_description p);
     registration_time := registration_time adv;
     owner := owner adv |}.

(** A column of [n] characters ([None]: of any length) stores the text [s]
    as it is: [s] has no U+0000 and is not longer than the column. *)
Definition storable (n : option nat) (s : string) : Prop :=
  has_nul s = false
  ∧ match n with
    | Some n' => (String.length s ≤ n')%nat
    | None => True
    end.

(** The store accepts the patched row: a field that changes must be
    storable in its column, a username or email that changes must not be
    that of another user, and the body of an advertisement patch must not
    set [owner] or [registration_time]. *)
Definition fits (n : option nat) (old new : option string) : Prop :=
  new = old ∨ match new with
              | Some s => storable n s
              | None => True
              end.

Definition users_accept (st : db) (user_id : Z) (old new : User) : Prop :=
  fits (Some 60%nat) (Some (username old)) (Some (username new))
  ∧ fits (Some 100%nat) (Some (email old)) (Some (email new))
  ∧ fits (Some 100%nat) (password old) (password new)
  ∧ (username new = username old
     ∨ username_free (users st) (Some user_id) (username new))
  ∧ (email new = email old
     ∨ email_free (users st) (Some user_id) (email new)).

Definition advertisements_accept (old new : Advertisement)
    (p : PatchAdvertisementSchema) : Prop :=
  fits (Some 64%nat) (Some (header old)) (Some (header new))
  ∧ fits None (Some (description old)) (Some (description new))
  ∧ truthy (pa_owner p) = false
  ∧ truthy (pa_registration_time p) = false.

(** What a column of [n] characters holds after [given] was assigned to
    the attribute: [given] itself, or [given] cut to the column. *)
Definition stored (n : option nat) (given now : string) : Prop :=
  now = given ∨ varchar n given = Some now.

Definition stored_opt (n : option nat) (given now : option string) : Prop :=
  match given, now with
  | Some g, Some s => stored n g s
  | None, None => True
  | _, _ => False
  end.

(** The row of a user after a patch: every column holds what the patch
    assigned, cut to the column where the column cuts. *)
Definition stored_User (given now : User) : Prop :=
  stored (Some 60%nat) (username given) (username now)
  ∧ stored (Some 100%nat) (email given) (email now)
  ∧ stored_opt (Some 100%nat) (password given) (password now).

Definition stored_Advertisement (given now : Advertisement) : Prop :=
  stored (Some 64%nat) (header given) (header now)
  ∧ description now = description given
  ∧ registration_time now = registration_time given
  ∧ owner now = owner given.

(** Every advertisement of [st] is still in [st'], with the registration
    time it had. *)
Definition keeps_registration_time (st st' : db) : Prop :=
  ∀ a adv, advertisements st !! a = Some adv →
    ∃ adv', advertisements st' !! a = Some adv'
            ∧ registration_time adv' = registration_time adv.


(** Two bodies that give the same values to the declared fields. *)
Definition same_fields (names : list string) (d d' : list (string * json)) : Prop :=
  Forall (λ name, dict_get name d = dict_get name d') names.

(** The store takes the new user: the texts are storable in their
    columns, the sequence gives an unused id, and the name and the email
    are new. *)
Definition users_take (st : db) (u e : string) : Prop :=
  storable (Some 60%nat) u
  ∧ storable (Some 100%nat) e
  ∧ in_int32 (users_id_seq st) = true
  ∧ users st !! users_id_seq st = None
  ∧ username_free (users st) None u
  ∧ email_free (users st) None e.

(** The store takes the new advertisement: the texts are storable, the
    sequence gives an unused id, and the owner is a user. *)
Definition advertisements_take (st : db) (h t : string) (o : Z) : Prop :=
  storable (Some 64%nat) h
  ∧ storable None t
  ∧ in_int32 (advertisements_id_seq st) = true
  ∧ advertisements st !! advertisements_id_seq st = None
  ∧ is_Some (users st !! o).

(** A text without spaces. *)
Fixpoint spaceless (s : string) : bool :=
  match s with
  | EmptyString => true
  | String c s' => negb (Ascii.eqb c " "%char) && spaceless s'
  end.

(** ** Consistency of the store *)

(** The unique columns: no two users share a username or an email. *)
Definition unique_users (st : db) : Prop :=
  ∀ i j u v,
    users st !! i = Some u → users st !! j = Some v →
    username u = username v ∨ email u = email v → i = j.

(** The foreign key: the owner of every advertisement is a user. *)
Definition owners_exist (st : db) : Prop :=
  map_Forall (λ _ a, owner_ok (users st) (owner a)) (advertisements st).

(** The sequences are ahead of every id in use. *)
Definition sequences_ahead (st : db) : Prop :=
  (∀ i u, users st !! i = Some u → i < users_id_seq st)
  ∧ (∀ i a, advertisements st !! i = Some a → i < advertisements_id_seq st).

Definition consistent (st : db) : Prop :=
  unique_users st ∧ owners_exist st ∧ sequences_ahead st.

(** The answer is a JSON response with status 200. *)
Definition is_200 (r : outcome) : Prop :=
  match r with
  | json_response 200 _ => True
  | _ => False
  end.

(** What a request can have done to the store when its session ends: one
    statement at most. *)
Inductive effect (st : db) : db → Prop :=
| no_effect : effect st st
| inserted_user r res st' :
    insert_user st r = (res, st') → effect st st'
| updated_user user_id old o st' :
    users st !! user_id = Some old →
    update_user st user_id old o = (None, st') → effect st st'
| deleted_user user_id old st' :
    users st !! user_id = Some old →
    delete_user st user_id = (None, st') → effect st st'
| inserted_advertisement now v res st' :
    insert_advertisement now st v = (res, st') → effect st st'
| updated_advertisement adv_id old o st' :
    advertisements st !! adv_id = Some old →
    update_advertisement st adv_id old o = (None, st') → effect st st'
| deleted_advertisement adv_id old st' :
    advertisements st !! adv_id = Some old →
    delete_advertisement st adv_id = (None, st') → effect st st'.

(** The field [name] of a patch body says nothing: it is absent, [null] or
    the empty string. *)
Definition blank (name : string) (d : list (string * json)) : Prop :=
  match dict_get name d with
  | None | Some JNull | Some (JStr EmptyString) => True
  | _ => False
  end.

(** Two versions of an advertisement with the same owner and the same
    registration time. *)
Definition same_origin (adv adv' : Advertisement) : Prop :=
  owner adv' = owner adv ∧ registration_time adv' = registration_time adv.

(** Every advertisement has a registration time. *)
Definition timed (st : db) : Prop :=
  map_Forall (λ _ a, is_Some (registration_time a)) (advertisements st).

(** * Properties *)

(** ** Tables *)

Lemma table_lookup_Some {A} (t : table A) i x :
  t !! i = Some x ↔ in_int32 i = true ∧ rows t !! i = Some x.
Proof.
  unfold lookup at 1, table_lookup.
  destruct (in_int32 i); split; try tauto; try discriminate.
  intros (? & _). discriminate.
Qed.

Lemma table_lookup_in_int32 {A} (t : table A) i x :
  t !! i = Some x → in_int32 i = true.
Proof. intros Hi. now apply table_lookup_Some in Hi. Qed.

Lemma table_lookup_rows {A} (t : table A) i :
  in_int32 i = true → t !! i = rows t !! i.
Proof. intros Hi. unfold lookup at 1, table_lookup. now rewrite Hi. Qed.

Lemma table_lookup_insert_eq {A} (t : table A) i x :
  in_int32 i = true → <[i := x]> t !! i = Some x.
Proof. intros Hi. rewrite (table_lookup_rows _ _ Hi). apply lookup_insert_eq. Qed.

Lemma table_lookup_insert_ne {A} (t : table A) i j x :
  i ≠ j → <[i := x]> t !! j = t !! j.
Proof.
  intros Hne. unfold lookup, table_lookup. simpl.
  destruct (in_int32 j); [| reflexivity]. now apply lookup_insert_ne.
Qed.

Lemma table_lookup_insert_Some {A} (t : table A) i j x y :
  <[i := x]> t !! j = Some y →
  (i = j ∧ x = y) ∨ (i ≠ j ∧ t !! j = Some y).
Proof.
  destruct (decide (i = j)) as [<- | Hne].
  - intros Hj. apply table_lookup_Some in Hj as (Hin & Hj).
    simpl in Hj. rewrite lookup_insert_eq in Hj. left. split; congruence.
  - rewrite table_lookup_insert_ne by exact Hne. auto.
Qed.

Lemma table_lookup_delete_eq {A} (t : table A) i : delete i t !! i = None.
Proof.
  unfold lookup, table_lookup. simpl.
  destruct (in_int32 i); [| reflexivity]. apply lookup_delete_eq.
Qed.

Lemma table_lookup_delete_ne {A} (t : table A) i j :
  i ≠ j → delete i t !! j = t !! j.
Proof.
  intros Hne. unfold lookup, table_lookup. simpl.
  destruct (in_int32 j); [| reflexivity]. now apply lookup_delete_ne.
Qed.

Lemma table_lookup_delete_Some {A} (t : table A) i j y :
  delete i t !! j = Some y → i ≠ j ∧ t !! j = Some y.
Proof.
  destruct (decide (i = j)) as [<- | Hne].
  - now rewrite table_lookup_delete_eq.
  - rewrite table_lookup_delete_ne by exact Hne. auto.
Qed.

Lemma table_lookup_empty {A} i : (∅ : table A) !! i = None.
Proof. unfold lookup, table_lookup. now destruct (in_int32 i). Qed.

Lemma table_lookup_singleton_Some {A} i j (x y : A) :
  ({[i := x]} : table A) !! j = Some y → i = j ∧ x = y.
Proof.
  intros Hj. apply table_lookup_Some in Hj as (_ & Hj).
  change (({[i := x]} : gmap Z A) !! j = Some y) in Hj.
  now apply lookup_singleton_Some in Hj.
Qed.

Lemma table_insert_id {A} (t : table A) i x :
  t !! i = Some x → <[i := x]> t = t.
Proof.
  intros Hi. apply table_lookup_Some in Hi as (_ & Hi).
  destruct t as [m]. unfold insert, table_insert. simpl in *.
  f_equal. now apply insert_id.
Qed.

Lemma table_Forall_insert {A} (P : Z → A → Prop) (t : table A) i x :
  P i x → map_Forall P t → map_Forall P (<[i := x]> t).
Proof.
  intros Hx Ht j y Hj.
  apply table_lookup_insert_Some in Hj as [(<- & <-) | (_ & Hj)]; auto.
Qed.

Lemma table_Forall_delete {A} (P : Z → A → Prop) (t : table A) i :
  map_Forall P t → map_Forall P (delete i t).
Proof.
  intros Ht j y Hj. apply table_lookup_delete_Some in Hj as (_ & Hj). auto.
Qed.

Lemma table_Forall_empty {A} (P : Z → A → Prop) : map_Forall P (∅ : table A).
Proof. intros j y Hj. now rewrite table_lookup_empty in Hj. Qed.

(** ** Texts and their columns *)

Lemma varchar_cut_fits n s :
  (String.length s ≤ n)%nat → varchar_cut n s = Some s.
Proof.
  revert n. induction s as [| c s IH]; intros n Hle; [reflexivity |].
  simpl in *. destruct n as [| n]; [lia |].
  rewrite IH by lia. reflexivity.
Qed.

Lemma varchar_cut_length n s s' :
  varchar_cut n s = Some s' → (String.length s' ≤ n)%nat.
Proof.
  revert n s'. induction s as [| c s IH]; intros n s'; simpl.
  - intros [= <-]. simpl. lia.
  - destruct n as [| n].
    + case_match; intros [= <-]; simpl; lia.
    + destruct (varchar_cut n s) as [r |] eqn:E; intros [= <-].
      simpl. specialize (IH _ _ E). lia.
Qed.

Lemma varchar_cut_spaceless n s s' :
  spaceless s = true → varchar_cut n s = Some s' → s' = s.
Proof.
  revert n s'. induction s as [| c s IH]; intros n s'; simpl.
  - now intros _ [= <-].
  - intros Hs. apply andb_prop in Hs as (Hc & Hs).
    destruct n as [| n].
    + destruct (Ascii.eqb c " "); [discriminate Hc | discriminate].
    + destruct (varchar_cut n s) as [r |] eqn:E; intros [= <-].
      now rewrite (IH _ _ Hs E).
Qed.

Lemma varchar_storable n s : storable n s → varchar n s = Some s.
Proof.
  intros (_ & Hle). destruct n as [n |]; [| reflexivity].
  now apply varchar_cut_fits.
Qed.

Lemma bind_String_storable n s :
  storable n s → bind_String n (PStr s) = Some (Some s).
Proof.
  intros Hs. pose proof (varchar_storable _ _ Hs) as Hv.
  destruct Hs as (Hnul & _).
  unfold bind_String, param_String, assign_String. now rewrite Hnul, Hv.
Qed.

Lemma bind_String_of_str n v x :
  bind_String n (of_str v) = Some x → stored_opt n v x.
Proof.
  unfold bind_String, param_String, assign_String.
  destruct v as [s |]; simpl.
  - destruct (has_nul s); [discriminate |].
    destruct (varchar n s) as [s' |] eqn:E; intros [= <-]. now right.
  - now intros [= <-].
Qed.

Lemma stored_spaceless n s s' : spaceless s = true → stored n s s' → s' = s.
Proof.
  intros Hs [-> | Hv]; [reflexivity |].
  destruct n as [n |]; simpl in Hv.
  - eauto using varchar_cut_spaceless.
  - congruence.
Qed.


Lemma varchar_length n s s' :
  (String.length s ≤ n)%nat → varchar (Some n) s = Some s' → s' = s.
Proof. intros Hle Hv. simpl in Hv. rewrite (varchar_cut_fits _ _ Hle) in Hv. congruence. Qed.

Lemma stored_any s s' : stored None s s' → s' = s.
Proof. intros [-> | Hv]; [reflexivity |]. simpl in Hv. congruence. Qed.

(** ** Validation *)

Lemma instantiate_Model {A} d (r : A + list ErrorWrapper) a :
  instantiate d r = Model a ↔ reserved d = false ∧ r = inl a.
Proof.
  unfold instantiate. destruct (reserved d), r; split;
    try discriminate; try (intros (? & ?); discriminate);
    try (intros [= ->]; auto); try (intros (_ & [= ->]); reflexivity).
Qed.

Lemma instantiate_ValidationError {A} d (r : A + list ErrorWrapper) errs :
  instantiate d r = ValidationError errs ↔ reserved d = false ∧ r = inr errs.
Proof.
  unfold instantiate. destruct (reserved d), r; split;
    try discriminate; try (intros (? & ?); discriminate);
    try (intros [= ->]; auto); try (intros (_ & [= ->]); reflexivity).
Qed.

Lemma required_str d name s :
  dict_get name d = Some (JStr s) → required str_validator name d = inl s.
Proof. intros E. unfold required. now rewrite E. Qed.

Lemma required_int d name n :
  dict_get name d = Some (JInt n) → required int_validator name d = inl n.
Proof. intros E. unfold required. now rewrite E. Qed.

Lemma validate_user_payload d u e p :
  reserved d = false →
  user_payload d u e p →
  validate_CreateUserSchema d
  = Model {| cu_username := u; cu_email := e; cu_password := p |}.
Proof.
  intros Hr (Hu & He & Hp). apply instantiate_Model. split; [exact Hr |].
  unfold fields_CreateUserSchema.
  now rewrite (required_str _ _ _ Hu), (required_str _ _ _ He),
    (required_str _ _ _ Hp).
Qed.

Lemma validate_advertisement_payload d h t o :
  reserved d = false →
  advertisement_payload d h t o →
  validate_CreateAdvertisementSchema d
  = Model {| ca_header := h; ca_description := t; ca_owner := o |}.
Proof.
  intros Hr (Hh & Ht & Ho). apply instantiate_Model. split; [exact Hr |].
  unfold fields_CreateAdvertisementSchema.
  now rewrite (required_str _ _ _ Hh), (required_str _ _ _ Ht),
    (required_int _ _ _ Ho).
Qed.

Lemma Model_user_payload d u e p v :
  user_payload d u e p →
  validate_CreateUserSchema d = Model v →
  v = {| cu_username := u; cu_email := e; cu_password := p |}.
Proof.
  intros Hd Hv. pose proof Hv as Hr. apply instantiate_Model in Hr as (Hr & _).
  rewrite (validate_user_payload _ _ _ _ Hr Hd) in Hv. congruence.
Qed.

Lemma Model_advertisement_payload d h t o v :
  advertisement_payload d h t o →
  validate_CreateAdvertisementSchema d = Model v →
  v = {| ca_header := h; ca_description := t; ca_owner := o |}.
Proof.
  intros Hd Hv. pose proof Hv as Hr. apply instantiate_Model in Hr as (Hr & _).
  rewrite (validate_advertisement_payload _ _ _ _ Hr Hd) in Hv. congruence.
Qed.

(** A failed validation reports at least one field. *)
Lemma CreateUserSchema_errors d errs :
  validate_CreateUserSchema d = ValidationError errs → errs ≠ [].
Proof.
  intros E. apply instantiate_ValidationError in E as (_ & E). revert E.
  unfold fields_CreateUserSchema.
  destruct (required str_validator "username" d),
    (required str_validator "email" d),
    (required str_validator "password" d); simpl; intros [= <-]; discriminate.
Qed.

Lemma CreateAdvertisementSchema_errors d errs :
  validate_CreateAdvertisementSchema d = ValidationError errs → errs ≠ [].
Proof.
  intros E. apply instantiate_ValidationError in E as (_ & E). revert E.
  unfold fields_CreateAdvertisementSchema.
  destruct (required str_validator "header" d),
    (required str_validator "description" d),
    (required int_validator "owner" d); simpl; intros [= <-]; discriminate.
Qed.

Lemma PatchUserSchema_errors d errs :
  validate_PatchUserSchema d = ValidationError errs → errs ≠ [].
Proof.
  intros E. apply instantiate_ValidationError in E as (_ & E). revert E.
  unfold fields_PatchUserSchema.
  destruct (optional str_validator "username" d),
    (optional str_validator "email" d),
    (optional str_validator "password" d); simpl; intros [= <-]; discriminate.
Qed.

Lemma PatchAdvertisementSchema_errors d errs :
  validate_PatchAdvertisementSchema d = ValidationError errs → errs ≠ [].
Proof.
  intros E. apply instantiate_ValidationError in E as (_ & E). revert E.
  unfold fields_PatchAdvertisementSchema.
  destruct (optional str_validator "header" d),
    (optional str_validator "description" d),
    (optional str_validator "owner" d),
    (optional str_validator "registration_time" d);
    simpl; intros [= <-]; discriminate.
Qed.

(** ** What an insertion leaves in the store *)

(** The row that [insert_user] stores for [r]. *)
Lemma insert_user_checked st r new_id st' :
  insert_user st r = (inl new_id, st') →
  ∃ row,
    new_id = users_id_seq st
    ∧ in_int32 new_id = true
    ∧ users st !! new_id = None
    ∧ (varchar (Some 60%nat) (username r) = Some (username row)
       ∧ varchar (Some 100%nat) (email r) = Some (email row)
       ∧ assign_String (Some 100%nat) (password r) = Some (password row))
    ∧ username_free (users st) None (username row)
    ∧ email_free (users st) None (email row)
    ∧ st' = set_users (next_user_id st) (<[new_id := row]> (users st)).
Proof.
  unfold insert_user, param_String. intros E.
  destruct (has_nul (username r)); [discriminate |].
  destruct (has_nul (email r)); [discriminate |].
  destruct (password r) as [h |] eqn:Hpw; cbn [of_str] in E;
    [destruct (has_nul h); [discriminate |] |].
  all: destruct (in_int32 (users_id_seq st)) eqn:Hin; [| discriminate].
  all: cbn [assign_String] in E.
  all: destruct (varchar (Some 60%nat) (username r)) as [u' |] eqn:Au;
    [| discriminate].
  all: destruct (varchar (Some 100%nat) (email r)) as [e' |] eqn:Ae;
    [| discriminate].
  - destruct (varchar (Some 100%nat) h) as [h' |] eqn:Ah; [| discriminate].
    cbn [fmap option_fmap option_map] in E.
    destruct (decide _) as [(Hfresh & Hfu & Hfe) | _]; [| discriminate].
    injection E as <- <-.
    exists {| username := u'; email := e'; password := Some h' |}.
    cbn [username email password assign_String]. rewrite Ah.
    repeat split; auto.
  - cbn [fmap option_fmap option_map] in E.
    destruct (decide _) as [(Hfresh & Hfu & Hfe) | _]; [| discriminate].
    injection E as <- <-.
    exists {| username := u'; email := e'; password := None |}.
    repeat split; auto.
Qed.

Lemma insert_user_refused st r e st' :
  insert_user st r = (inr e, st') →
  st' = st ∨ st' = next_user_id st.
Proof. unfold insert_user. intros E. repeat case_match; simplify_eq; auto. Qed.

Lemma insert_advertisement_checked now st v new_id st' :
  insert_advertisement now st v = (inl new_id, st') →
  ∃ row,
    new_id = advertisements_id_seq st
    ∧ in_int32 new_id = true
    ∧ advertisements st !! new_id = None
    ∧ varchar (Some 64%nat) (ca_header v) = Some (header row)
    ∧ description row = ca_description v
    ∧ registration_time row = Some now
    ∧ owner row = Some (ca_owner v)
    ∧ is_Some (users st !! ca_owner v)
    ∧ st' = set_advertisements (next_advertisement_id st)
              (<[new_id := row]> (advertisements st)).
Proof.
  unfold insert_advertisement, bind_Integer, param_String, assign_String.
  intros E.
  destruct (has_nul (ca_header v)); [discriminate |].
  destruct (has_nul (ca_description v)); [discriminate |].
  destruct (in_int32 (ca_owner v)); [| discriminate].
  destruct (in_int32 (advertisements_id_seq st)) eqn:Hin; [| discriminate].
  destruct (varchar (Some 64%nat) (ca_header v)) as [h' |] eqn:Ah;
    [| discriminate].
  simpl in E.
  destruct (decide _) as [(Hfresh & Hown) | _]; [| discriminate].
  injection E as <- <-.
  eexists. repeat split; eauto.
Qed.

Lemma insert_advertisement_refused now st v e st' :
  insert_advertisement now st v = (inr e, st') →
  st' = st ∨ st' = next_advertisement_id st.
Proof.
  unfold insert_advertisement. intros E. repeat case_match; simplify_eq; auto.
Qed.

Lemma insert_user_inr st r e st' :
  insert_user st r = (inr e, st') →
  users st' = users st ∧ advertisements st' = advertisements st.
Proof. intros E. apply insert_user_refused in E as [-> | ->]; auto. Qed.

Lemma insert_advertisement_inr now st v e st' :
  insert_advertisement now st v = (inr e, st') →
  advertisements st' = advertisements st ∧ users st' = users st.
Proof. intros E. apply insert_advertisement_refused in E as [-> | ->]; auto. Qed.

Lemma UserView_post_200 `{Bcrypt} salt st d new_id st' :
  UserView.post salt st (Parsed (JDict d))
  = (json_response 200 (JDict [("id", JInt new_id)]), st') →
  ∃ v hashed,
    validate_CreateUserSchema d = Model v
    ∧ hashpw (cu_password v) salt = Some hashed
    ∧ insert_user st {| username := cu_username v; email := cu_email v;
                        password := Some hashed |} = (inl new_id, st').
Proof.
  unfold UserView.post.
  destruct (validate_CreateUserSchema d) as [v | errs |]; try discriminate.
  destruct (hashpw _ _) as [hashed |] eqn:Hh; [| discriminate].
  destruct (insert_user _ _) as [[i | e] st1] eqn:Hi.
  - intros [= <- <-]. eauto.
  - destruct e; discriminate.
Qed.

Lemma AdvView_post_200 now st d new_id st' :
  AdvView.post now st (Parsed (JDict d))
  = (json_response 200 (JDict [("id", JInt new_id)]), st') →
  ∃ v,
    validate_CreateAdvertisementSchema d = Model v
    ∧ insert_advertisement now st v = (inl new_id, st').
Proof.
  unfold AdvView.post.
  destruct (validate_CreateAdvertisementSchema d) as [v | errs |];
    try discriminate.
  destruct (insert_advertisement _ _ _) as [[i | e] st1] eqn:Hi.
  - intros [= <- <-]. eauto.
  - destruct e; discriminate.
Qed.

(** ** Rows that are there, and rows that are not *)

Lemma get_item_None {A} (cls : table A) item_id cls_name :
  in_int32 item_id = true →
  cls !! item_id = None →
  get_item cls item_id cls_name
  = inr (NotFound (JStr (cls_name ++ " does not exist"))).
Proof. intros Hin E. unfold get_item, bind_Integer. now rewrite Hin, E. Qed.

Lemma get_item_Some {A} (cls : table A) item_id cls_name r :
  cls !! item_id = Some r → get_item cls item_id cls_name = inl r.
Proof.
  intros E. unfold get_item, bind_Integer.
  now rewrite (table_lookup_in_int32 _ _ _ E), E.
Qed.

Lemma get_item_inl {A} (cls : table A) item_id cls_name r :
  get_item cls item_id cls_name = inl r → cls !! item_id = Some r.
Proof.
  unfold get_item, bind_Integer.
  destruct (in_int32 item_id); [| discriminate].
  destruct (cls !! item_id); [congruence | discriminate].
Qed.

Lemma get_item_inr {A} (cls : table A) item_id cls_name r :
  get_item cls item_id cls_name = inr r →
  r = raised DBAPIError
  ∨ r = json_response 404 (JDict [("error", JStr (cls_name ++ " does not exist"))]).
Proof.
  unfold get_item, bind_Integer.
  destruct (in_int32 item_id); [| intros [= <-]; auto].
  destruct (cls !! item_id); [discriminate | intros [= <-]; auto].
Qed.

(** ** POST, then GET *)

(** C1, as the code has it.  A create payload with fields of the declared
    types, once POST has answered 200 with the id [N], is read back by GET
    on [N] with every text as its column stored it: the submitted text when
    it is not longer than the column (60 characters for [username], 100 for
    [email], 64 for [header]), and the first characters of it when it is
    longer and the excess is spaces.  [description], [owner] and the time
    the server gave are returned as they are; the password is not
    returned. *)
Theorem post_then_get `{Bcrypt} (salt : string) (now : datetime) (st st' : db)
    (d : list (string * json)) (N : Z) :
  (∀ u e p,
     user_payload d u e p →
     UserView.post salt st (Parsed (JDict d))
     = (json_response 200 (JDict [("id", JInt N)]), st') →
     ∃ u' e',
       UserView.get st' N
       = (json_response 200
            (JDict [("username", JStr u'); ("email", JStr e')]), st')
       ∧ varchar (Some 60%nat) u = Some u'
       ∧ varchar (Some 100%nat) e = Some e'
       ∧ ((String.length u ≤ 60)%nat → u' = u)
       ∧ ((String.length e ≤ 100)%nat → e' = e))
  ∧ (∀ h t o,
       advertisement_payload d h t o →
       AdvView.post now st (Parsed (JDict d))
       = (json_response 200 (JDict [("id", JInt N)]), st') →
       ∃ h',
         AdvView.get st' N
         = (json_response 200
              (JDict [("header", JStr h');
                      ("registration_time", JStr (isoformat now));
                      ("description", JStr t);
                      ("owner", JInt o)]), st')
         ∧ varchar (Some 64%nat) h = Some h'
         ∧ ((String.length h ≤ 64)%nat → h' = h)).
Proof.
  split.
  - intros u e p Hd Hpost.
    apply UserView_post_200 in Hpost as (v & hashed & Hv & _ & Hins).
    rewrite (Model_user_payload _ _ _ _ _ Hd Hv) in Hins. simpl in Hins.
    apply insert_user_checked in Hins
      as (row & _ & Hin & _ & (Hu & He & _) & _ & _ & ->).
    simpl in Hu, He.
    exists (username row), (email row).
    split; [| repeat split; eauto using varchar_length].
    unfold UserView.get.
    rewrite (get_item_Some _ _ _ row); [reflexivity |].
    simpl. now apply table_lookup_insert_eq.
  - intros h t o Hd Hpost.
    apply AdvView_post_200 in Hpost as (v & Hv & Hins).
    rewrite (Model_advertisement_payload _ _ _ _ _ Hd Hv) in Hins.
    apply insert_advertisement_checked in Hins
      as (row & _ & Hin & _ & Hh & Ht & Hr & Ho & _ & ->).
    simpl in Hh, Ht, Ho.
    exists (header row).
    split; [| repeat split; eauto using varchar_length].
    unfold AdvView.get.
    rewrite (get_item_Some _ _ _ row);
      [| simpl; now apply table_lookup_insert_eq].
    now rewrite Hr, Ht, Ho.
Qed.

Lemma post_then_get_witness :
  (user_payload user3 "user3" "user3@mail.com" "12345"
   ∧ UserView.post "salt" empty_db (Parsed (JDict user3))
     = (json_response 200 (JDict [("id", JInt 1)]), db_user3)
   ∧ ∃ u' e',
       UserView.get db_user3 1
       = (json_response 200
            (JDict [("username", JStr u'); ("email", JStr e')]), db_user3)
       ∧ varchar (Some 60%nat) "user3" = Some u'
       ∧ varchar (Some 100%nat) "user3@mail.com" = Some e'
       ∧ ((String.length "user3" ≤ 60)%nat → u' = "user3")
       ∧ ((String.length "user3@mail.com" ≤ 100)%nat → e' = "user3@mail.com"))
  ∧ (advertisement_payload opel "Opel Astra J" "as new" 1
     ∧ AdvView.post noon db_user3 (Parsed (JDict opel))
       = (json_response 200 (JDict [("id", JInt 1)]), db_opel)
     ∧ ∃ h',
         AdvView.get db_opel 1
         = (json_response 200
              (JDict [("header", JStr h');
                      ("registration_time", JStr (isoformat noon));
                      ("description", JStr "as new");
                      ("owner", JInt 1)]), db_opel)
         ∧ varchar (Some 64%nat) "Opel Astra J" = Some h'
         ∧ ((String.length "Opel Astra J" ≤ 64)%nat → h' = "Opel Astra J")).
Proof.
  assert (Hu : user_payload user3 "user3" "user3@mail.com" "12345")
    by (repeat split; reflexivity).
  assert (Hpu : UserView.post "salt" empty_db (Parsed (JDict user3))
                = (json_response 200 (JDict [("id", JInt 1)]), db_user3))
    by (vm_compute; reflexivity).
  assert (Ha : advertisement_payload opel "Opel Astra J" "as new" 1)
    by (repeat split; reflexivity).
  assert (Hpa : AdvView.post noon db_user3 (Parsed (JDict opel))
                = (json_response 200 (JDict [("id", JInt 1)]), db_opel))
    by (vm_compute; reflexivity).
  split; (split; [assumption | split; [assumption |]]).
  - exact (proj1 (post_then_get "salt" noon empty_db db_user3 user3 1)
             _ _ _ Hu Hpu).
  - exact (proj2 (post_then_get "salt" noon db_user3 db_opel opel 1)
             _ _ _ Ha Hpa).
Defined.

(** A username of 61 characters that ends in a space: POST answers 200,
    the column keeps 60 characters, and GET does not return the name that
    was submitted. *)
Lemma padded_username_is_cut :
  user_payload user3_padded ("user3" ++ spaces 56) "user3@mail.com" "12345"
  ∧ String.length ("user3" ++ spaces 56) = 61%nat
  ∧ UserView.post "salt" empty_db (Parsed (JDict user3_padded))
    = (json_response 200 (JDict [("id", JInt 1)]), db_user3_padded)
  ∧ UserView.get db_user3_padded 1
    = (json_response 200
         (JDict [("username", JStr ("user3" ++ spaces 55));
                 ("email", JStr "user3@mail.com")]), db_user3_padded)
  ∧ "user3" ++ spaces 55 ≠ "user3" ++ spaces 56.
Proof.
  split; [repeat split; reflexivity |].
  split; [reflexivity |].
  split; [vm_compute; reflexivity |].
  split; [vm_compute; reflexivity |].
  intros E. apply (f_equal String.length) in E. vm_compute in E. discriminate E.
Qed.

(** ** Rows that are not there *)




(** ** Payloads that fail the create schemas *)










(** ** Unique columns *)

Lemma username_taken m i r except :
  m !! i = Some r → Some i ≠ except → ¬ username_free m except (username r).
Proof.
  intros Hi Hne Hfree. destruct (Hfree i r Hi) as [? | ?]; congruence.
Qed.

Lemma email_taken m i r except :
  m !! i = Some r → Some i ≠ except → ¬ email_free m except (email r).
Proof.
  intros Hi Hne Hfree. destruct (Hfree i r Hi) as [? | ?]; congruence.
Qed.

Lemma param_String_storable n s :
  storable n s → param_String (PStr s) = Some (Some s).
Proof. intros (Hnul & _). simpl. now rewrite Hnul. Qed.

Lemma assign_String_storable n s :
  storable n s → assign_String n (Some s) = Some (Some s).
Proof. intros Hs. simpl. now rewrite (varchar_storable _ _ Hs). Qed.

Lemma hashpw_storable `{Bcrypt} pw salt hashed :
  hashpw pw salt = Some hashed → storable (Some 100%nat) hashed.
Proof.
  intros Hh. split; [eauto using hashpw_text |].
  rewrite (hashpw_length _ _ _ Hh). lia.
Qed.

(** The INSERT of a user whose texts are storable comes down to the key
    and the two unique columns. *)
Lemma insert_user_storable st u e h :
  storable (Some 60%nat) u → storable (Some 100%nat) e →
  storable (Some 100%nat) h →
  in_int32 (users_id_seq st) = true →
  insert_user st {| username := u; email := e; password := Some h |}
  = if decide (users st !! users_id_seq st = None
               ∧ username_free (users st) None u
               ∧ email_free (users st) None e)
    then (inl (users_id_seq st),
          set_users (next_user_id st)
            (<[users_id_seq st :=
                 {| username := u; email := e; password := Some h |}]>
               (users st)))
    else (inr IntegrityError, next_user_id st).
Proof.
  intros Hu He Hh Hin. unfold insert_user.
  cbn [username email password of_str].
  rewrite (param_String_storable _ _ Hu), (param_String_storable _ _ He),
    (param_String_storable _ _ Hh), Hin.
  rewrite (assign_String_storable _ _ Hu), (assign_String_storable _ _ He),
    (assign_String_storable _ _ Hh).
  reflexivity.
Qed.

(** The INSERT of an advertisement whose texts are storable comes down to
    the key and the foreign key. *)
Lemma insert_advertisement_storable now st h t o :
  storable (Some 64%nat) h → storable None t →
  in_int32 o = true →
  in_int32 (advertisements_id_seq st) = true →
  insert_advertisement now st
    {| ca_header := h; ca_description := t; ca_owner := o |}
  = if decide (advertisements st !! advertisements_id_seq st = None
               ∧ owner_ok (users st) (Some o))
    then (inl (advertisements_id_seq st),
          set_advertisements (next_advertisement_id st)
            (<[advertisements_id_seq st :=
                 {| header := h; description := t;
                    registration_time := Some now; owner := Some o |}]>
               (advertisements st)))
    else (inr IntegrityError, next_advertisement_id st).
Proof.
  intros Hh Ht Ho Hin. unfold insert_advertisement.
  cbn [ca_header ca_description ca_owner bind_Integer].
  rewrite (param_String_storable _ _ Hh), (param_String_storable _ _ Ht),
    Ho, Hin.
  rewrite (assign_String_storable _ _ Hh), (assign_String_storable _ _ Ht).
  reflexivity.
Qed.

(** C4, as the code has it.  When the store holds a user and a create
    payload repeats its username or its email, POST answers 400 with "user
    already exists", both tables are as before, and GET still returns the
    first user's fields, provided that the payload has no member named
    [__pydantic_self__], its username and email have no U+0000 and are
    within the column lengths, bcrypt hashes the password, and the
    sequence of ids is not used up. *)
Theorem duplicate_user_400 `{Bcrypt} (salt : string) (st : db)
    (first_id : Z) (first : User) (d : list (string * json))
    (u e p hashed : string) :
  users st !! first_id = Some first →
  reserved d = false →
  user_payload d u e p →
  storable (Some 60%nat) u →
  storable (Some 100%nat) e →
  hashpw p salt = Some hashed →
  in_int32 (users_id_seq st) = true →
  u = username first ∨ e = email first →
  ∃ st',
    UserView.post salt st (Parsed (JDict d))
    = (json_response 400 (JDict [("error", JStr "user already exists")]), st')
    ∧ users st' = users st
    ∧ advertisements st' = advertisements st
    ∧ UserView.get st' first_id
      = (json_response 200
           (JDict [("username", JStr (username first));
                   ("email", JStr (email first))]), st').
Proof.
  intros Hfirst Hr Hd Hu He Hh Hin Hdup.
  exists (next_user_id st).
  split; [| split; [reflexivity | split; [reflexivity |]]].
  - unfold UserView.post. rewrite (validate_user_payload _ _ _ _ Hr Hd). simpl.
    rewrite Hh, (insert_user_storable _ _ _ _ Hu He (hashpw_storable _ _ _ Hh) Hin).
    destruct (decide _) as [(_ & Hfu & Hfe) | _]; [exfalso | reflexivity].
    destruct Hdup as [-> | ->].
    + apply (username_taken _ _ _ None Hfirst); [discriminate | exact Hfu].
    + apply (email_taken _ _ _ None Hfirst); [discriminate | exact Hfe].
  - unfold UserView.get. simpl. now rewrite (get_item_Some _ _ _ _ Hfirst).
Qed.

Lemma duplicate_user_400_witness :
  ∃ st',
    UserView.post "salt" db_user3
      (Parsed (JDict [("username", JStr "user3"); ("email", JStr "other@mail.com");
                      ("password", JStr "54321")]))
    = (json_response 400 (JDict [("error", JStr "user already exists")]), st')
    ∧ users st' = users db_user3
    ∧ advertisements st' = advertisements db_user3
    ∧ UserView.get st' 1
      = (json_response 200
           (JDict [("username", JStr "user3");
                   ("email", JStr "user3@mail.com")]), st').
Proof.
  refine (duplicate_user_400 "salt" db_user3 1
            {| username := "user3"; email := "user3@mail.com";
               password := Some example_hash |}
            [("username", JStr "user3"); ("email", JStr "other@mail.com");
             ("password", JStr "54321")]
            "user3" "other@mail.com" "54321" example_hash _ _ _ _ _ _ _ _).
  - reflexivity.
  - reflexivity.
  - repeat split; reflexivity.
  - split; [reflexivity | simpl; lia].
  - split; [reflexivity | simpl; lia].
  - reflexivity.
  - reflexivity.
  - left; reflexivity.
Defined.

(** A second user with the username of the first and an email of 101
    characters: the store refuses the email before it compares the
    usernames, and POST raises instead of answering 400. *)
Lemma duplicate_with_long_email_raises :
  let d := [("username", JStr "user3"); ("email", JStr long_email);
            ("password", JStr "12345")] in
  users db_user3 !! 1
  = Some {| username := "user3"; email := "user3@mail.com";
            password := Some example_hash |}
  ∧ user_payload d "user3" long_email "12345"
  ∧ String.length long_email = 101%nat
  ∧ UserView.post "salt" db_user3 (Parsed (JDict d))
    = (raised DBAPIError, next_user_id db_user3)
  ∧ ¬ (∃ data st', UserView.post "salt" db_user3 (Parsed (JDict d))
                   = (json_response 400 data, st')).
Proof.
  assert (E : UserView.post "salt" db_user3
                (Parsed (JDict [("username", JStr "user3");
                                ("email", JStr long_email);
                                ("password", JStr "12345")]))
              = (raised DBAPIError, next_user_id db_user3))
    by (vm_compute; reflexivity).
  cbv zeta. split; [reflexivity |]. split; [repeat split; reflexivity |].
  split; [reflexivity |]. split; [exact E |].
  intros (data & st' & E'). rewrite E in E'. discriminate E'.
Qed.

(** ** What the patch loop assigns *)

Lemma set_items_User p user :
  let o := set_items (dict_PatchUserSchema p) (load_User user) in
  o "username" = PStr (patched (username user) (pu_username p))
  ∧ o "email" = PStr (patched (email user) (pu_email p))
  ∧ o "password" = of_str (patched_opt (password user) (pu_password p)).
Proof.
  destruct p as [[[|? ?]|] [[|? ?]|] [[|? ?]|]]; repeat split; reflexivity.
Qed.

Lemma set_items_Advertisement p adv :
  let o := set_items (dict_PatchAdvertisementSchema p) (load_Advertisement adv) in
  o "header" = PStr (patched (header adv) (pa_header p))
  ∧ o "description" = PStr (patched (description adv) (pa_description p))
  ∧ o "owner" = (if truthy (pa_owner p) then of_str (pa_owner p)
                 else of_int (owner adv))
  ∧ o "registration_time"
    = (if truthy (pa_registration_time p) then of_str (pa_registration_time p)
       else of_datetime (registration_time adv)).
Proof.
  destruct p as [[[|? ?]|] [[|? ?]|] [[|? ?]|] [[|? ?]|]];
    repeat split; reflexivity.
Qed.

(** ** What an UPDATE binds *)

Lemma column_str_opt n old new :
  column of_str (bind_String n) old (of_str new)
  = if decide (new = old) then Some new else bind_String n (of_str new).
Proof.
  unfold column.
  destruct (decide (new = old)) as [-> | Hne].
  - now rewrite decide_True.
  - rewrite decide_False; [reflexivity |].
    destruct new, old; simpl; congruence.
Qed.

Lemma column_int_str old s : column of_int bind_Integer old (PStr s) = None.
Proof. unfold column. destruct old; reflexivity. Qed.

Lemma column_datetime_str old s :
  column of_datetime bind_DateTime old (PStr s) = None.
Proof. unfold column. destruct old; reflexivity. Qed.

Lemma column_int_same old : column of_int bind_Integer old (of_int old) = Some old.
Proof. unfold column. now rewrite decide_True. Qed.

Lemma column_datetime_same old :
  column of_datetime bind_DateTime old (of_datetime old) = Some old.
Proof. unfold column. now rewrite decide_True. Qed.

Lemma truthy_of_str v : truthy v = true → ∃ s, of_str v = PStr s.
Proof. destruct v as [[|]|]; try discriminate; simpl; eauto. Qed.

(** ** The row after a patch *)

Lemma fits_column n old new :
  fits n old new →
  column of_str (bind_String n) old (of_str new) = Some new.
Proof.
  intros [-> | Hs]; rewrite column_str_opt.
  - now rewrite decide_True.
  - destruct (decide _); [reflexivity |].
    destruct new; [apply bind_String_storable; exact Hs | reflexivity].
Qed.

Lemma stored_opt_refl n v : stored_opt n v v.
Proof. destruct v; simpl; [now left | exact I]. Qed.

Lemma column_stored n old new x :
  column of_str (bind_String n) old (of_str new) = Some x → stored_opt n new x.
Proof.
  rewrite column_str_opt. destruct (decide _).
  - intros [= <-]. apply stored_opt_refl.
  - apply bind_String_of_str.
Qed.

Lemma column_stored_Some n old new x :
  column of_str (bind_String n) old (PStr new) = Some x →
  ∃ s, x = Some s ∧ stored n new s.
Proof.
  intros E. apply (column_stored n old (Some new)) in E.
  destruct x as [s |]; simpl in E; [eauto | contradiction].
Qed.

Lemma update_user_patched st user_id old o new :
  o "username" = PStr (username new) →
  o "email" = PStr (email new) →
  o "password" = of_str (password new) →
  (users_accept st user_id old new →
   update_user st user_id old o
   = (None, set_users st (<[user_id := new]> (users st))))
  ∧ (∀ e st', update_user st user_id old o = (e, st') →
       (e = None
        ∧ ∃ row, stored_User new row
                 ∧ st' = set_users st (<[user_id := row]> (users st)))
       ∨ (∃ x, e = Some x ∧ st' = st)).
Proof.
  intros Eu Ee Ep. unfold update_user. rewrite Eu, Ee, Ep.
  split.
  - intros (Hu & He & Hp & Huu & Hue).
    change (PStr (username new)) with (of_str (Some (username new))).
    change (PStr (email new)) with (of_str (Some (email new))).
    rewrite (fits_column _ _ _ Hu), (fits_column _ _ _ He), (fits_column _ _ _ Hp).
    rewrite decide_True by auto. now destruct new.
  - intros e st'.
    destruct (column _ _ (Some (username old)) _) as [cu|] eqn:Cu;
      [| intros [= <- <-]; eauto].
    destruct (column _ _ (Some (email old)) _) as [ce|] eqn:Ce;
      [| destruct cu; intros [= <- <-]; eauto].
    destruct (column _ _ (password old) _) as [cp|] eqn:Cp;
      [| destruct cu, ce; intros [= <- <-]; eauto].
    apply column_stored_Some in Cu as (u' & -> & Hu).
    apply column_stored_Some in Ce as (e' & -> & He).
    apply column_stored in Cp.
    destruct (decide _); intros [= <- <-]; [left | eauto].
    split; [reflexivity |].
    exists {| username := u'; email := e'; password := cp |}.
    repeat split; assumption.
Qed.

Lemma update_advertisement_patched st adv_id old o p :
  o "header" = PStr (patched (header old) (pa_header p)) →
  o "description" = PStr (patched (description old) (pa_description p)) →
  o "owner" = (if truthy (pa_owner p) then of_str (pa_owner p)
               else of_int (owner old)) →
  o "registration_time"
  = (if truthy (pa_registration_time p) then of_str (pa_registration_time p)
     else of_datetime (registration_time old)) →
  let new := patched_Advertisement old p in
  (advertisements_accept old new p →
   update_advertisement st adv_id old o
   = (None, set_advertisements st (<[adv_id := new]> (advertisements st))))
  ∧ (∀ e st', update_advertisement st adv_id old o = (e, st') →
       (e = None
        ∧ truthy (pa_owner p) = false
        ∧ truthy (pa_registration_time p) = false
        ∧ ∃ row, stored_Advertisement new row
                 ∧ st' = set_advertisements st
                           (<[adv_id := row]> (advertisements st)))
       ∨ (∃ x, e = Some x ∧ st' = st)).
Proof.
  intros Eh Et Eo Er new. unfold update_advertisement.
  rewrite Eh, Et, Eo, Er.
  split.
  - intros (Hh & Hd & -> & ->).
    change (PStr (patched (header old) (pa_header p)))
      with (of_str (Some (header new))).
    change (PStr (patched (description old) (pa_description p)))
      with (of_str (Some (description new))).
    rewrite (fits_column _ _ _ Hh), (fits_column _ _ _ Hd),
      column_int_same, column_datetime_same.
    rewrite decide_True by auto. reflexivity.
  - intros e st'.
    destruct (column _ _ (Some (header old)) _) as [ch|] eqn:Ch;
      [| intros [= <- <-]; eauto].
    destruct (column _ _ (Some (description old)) _) as [ct|] eqn:Ct;
      [| destruct ch; intros [= <- <-]; eauto].
    apply column_stored_Some in Ch as (h' & -> & Hh).
    apply column_stored_Some in Ct as (t' & -> & Ht).
    apply stored_any in Ht. subst t'.
    destruct (truthy (pa_registration_time p)) eqn:Tr.
    { destruct (truthy_of_str _ Tr) as (s & ->).
      rewrite column_datetime_str. intros [= <- <-]; eauto. }
    rewrite column_datetime_same.
    destruct (truthy (pa_owner p)) eqn:To.
    { destruct (truthy_of_str _ To) as (s & ->).
      rewrite column_int_str. intros [= <- <-]; eauto. }
    rewrite column_int_same.
    rewrite decide_True by auto. intros [= <- <-]. left.
    repeat split.
    eexists. split; [| reflexivity]. repeat split; assumption.
Qed.




(** A header of 65 characters that ends in a space: PATCH answers success
    and the column holds the first 64 characters. *)
Example patch_padded_header_is_cut :
  AdvView.patch db_opel 1
    (Parsed (JDict [("header", JStr ("Ford Focus 3" ++ spaces 53))]))
  = (success,
     set_advertisements db_opel
       (<[1 := {| header := "Ford Focus 3" ++ spaces 52; description := "as new";
                  registration_time := Some noon; owner := Some 1 |}]>
          (advertisements db_opel))).
Proof. vm_compute; reflexivity. Qed.

(** ** What each handler can do to the other table and to other rows *)

Lemma UserView_post_advertisements `{Bcrypt} salt st data :
  advertisements (UserView.post salt st data).2 = advertisements st.
Proof.
  unfold UserView.post.
  destruct data as [| []]; try reflexivity.
  destruct (validate_CreateUserSchema d) as [v | errs |]; try reflexivity.
  destruct (hashpw _ _) as [hashed |]; [| reflexivity].
  destruct (insert_user _ _) as [[i | e] st1] eqn:Hi.
  - apply insert_user_checked in Hi as (row & _ & _ & _ & _ & _ & _ & ->).
    reflexivity.
  - apply insert_user_inr in Hi as (_ & Hi). now destruct e.
Qed.

Lemma UserView_advertisements `{Bcrypt} req st :
  match req with
  | GET_user _ | PATCH_user _ _ | DELETE_user _ | POST_user _ _ =>
      advertisements (app req st).2 = advertisements st
  | _ => True
  end.
Proof.
  destruct req; try exact I; simpl.
  - unfold UserView.get. now case_match.
  - unfold UserView.patch, update_user. repeat case_match; simplify_eq; reflexivity.
  - unfold UserView.delete, delete_user. repeat case_match; simplify_eq; reflexivity.
  - apply UserView_post_advertisements.
Qed.

Lemma keeps_registration_time_eq st st' :
  advertisements st' = advertisements st → keeps_registration_time st st'.
Proof. intros E a adv Ha. rewrite E. eauto. Qed.

Lemma AdvView_patch_keeps st adv_id data :
  keeps_registration_time st (AdvView.patch st adv_id data).2.
Proof.
  unfold AdvView.patch.
  destruct data as [| []]; try (apply keeps_registration_time_eq; reflexivity).
  destruct (validate_PatchAdvertisementSchema d) as [p | errs |] eqn:Hp;
    try (apply keeps_registration_time_eq; reflexivity).
  destruct (get_item _ _ _) as [adv0 | nf] eqn:Hget;
    [| apply keeps_registration_time_eq; reflexivity].
  apply get_item_inl in Hget.
  destruct (set_items_Advertisement p adv0) as (Eh & Et & Eo & Er).
  destruct (update_advertisement_patched st adv_id adv0 _ p Eh Et Eo Er)
    as (_ & Hany).
  destruct (update_advertisement _ _ _ _) as [e st1] eqn:E.
  destruct (Hany _ _ eq_refl)
    as [(-> & _ & _ & row & (_ & _ & Hr & _) & ->) | (x & -> & ->)]; simpl.
  - intros a adv Ha. simpl.
    destruct (decide (a = adv_id)) as [-> | Hne].
    + rewrite table_lookup_insert_eq by eauto using table_lookup_in_int32.
      simplify_eq. eauto.
    + rewrite table_lookup_insert_ne by congruence. eauto.
  - apply keeps_registration_time_eq; reflexivity.
Qed.

Lemma AdvView_post_keeps now st data :
  keeps_registration_time st (AdvView.post now st data).2.
Proof.
  unfold AdvView.post.
  destruct data as [| []]; try (apply keeps_registration_time_eq; reflexivity).
  destruct (validate_CreateAdvertisementSchema d) as [v | errs |];
    try (apply keeps_registration_time_eq; reflexivity).
  destruct (insert_advertisement now st v) as [[i | e] st1] eqn:E.
  - apply insert_advertisement_checked in E
      as (row & _ & _ & Hfresh & _ & _ & _ & _ & _ & ->). simpl.
    intros a adv Ha. simpl.
    rewrite table_lookup_insert_ne by congruence. eauto.
  - apply insert_advertisement_inr in E as (E & _).
    destruct e; apply keeps_registration_time_eq; exact E.
Qed.

(** C6.  The registration time of an advertisement is the clock reading of
    the server when POST inserted it, whatever the body said; after any
    PATCH of any advertisement with any body it is still that value; and
    any other request either leaves it so too or is the DELETE of that
    advertisement.  (A PATCH whose body carries a non-empty
    registration_time hands a string to the DateTime column: the commit
    fails and nothing is stored.) *)
Theorem registration_time_is_kept `{Bcrypt} (st : db) :
  (∀ now d N st',
     AdvView.post now st (Parsed (JDict d))
     = (json_response 200 (JDict [("id", JInt N)]), st') →
     ∃ adv, advertisements st' !! N = Some adv
            ∧ registration_time adv = Some now)
  ∧ (∀ adv_id data, keeps_registration_time st (AdvView.patch st adv_id data).2)
  ∧ (∀ req a adv,
       advertisements st !! a = Some adv →
       req = DELETE_advertisement a
       ∨ ∃ adv', advertisements (app req st).2 !! a = Some adv'
                 ∧ registration_time adv' = registration_time adv).
Proof.
  split; [| split].
  - intros now d N st' Hpost.
    apply AdvView_post_200 in Hpost as (v & _ & Hins).
    apply insert_advertisement_checked in Hins
      as (row & _ & Hin & _ & _ & _ & Hr & _ & _ & ->). simpl.
    rewrite table_lookup_insert_eq by exact Hin. eauto.
  - intros. apply AdvView_patch_keeps.
  - intros req a adv Ha.
    pose proof (UserView_advertisements req st) as Hu.
    destruct req; simpl in *;
      try (right; rewrite Hu; eauto; fail).
    + right. unfold AdvView.get. repeat case_match; simpl; eauto.
    + right. now apply AdvView_patch_keeps.
    + destruct (decide (adv_id = a)) as [-> | Hne]; [now left | right].
      unfold AdvView.delete, delete_advertisement.
      case_match; simpl; [| eauto].
      rewrite table_lookup_delete_ne by congruence. eauto.
    + right. now apply AdvView_post_keeps.
Qed.

Lemma registration_time_is_kept_witness :
  (∃ adv, advertisements db_opel !! 1 = Some adv
          ∧ registration_time adv = Some noon)
  ∧ (∃ adv',
       advertisements
         (AdvView.patch db_opel 1
            (Parsed (JDict [("registration_time", JStr "2000-01-01T00:00:00")]))).2
       !! 1 = Some adv'
       ∧ registration_time adv' = Some noon).
Proof.
  split.
  - refine (proj1 (registration_time_is_kept db_user3) noon
              [("header", JStr "Opel Astra J"); ("description", JStr "as new");
               ("owner", JInt 1); ("registration_time", JStr "1999-01-01")]
              1 db_opel _).
    vm_compute; reflexivity.
  - refine (proj1 (proj2 (registration_time_is_kept db_opel)) 1 _ 1
              {| header := "Opel Astra J"; description := "as new";
                 registration_time := Some noon; owner := Some 1 |} _).
    reflexivity.
Defined.

(** A PATCH that carries a registration time, on the store of the examples:
    the string is refused by the DateTime column and the handler raises. *)
Example patch_registration_time_raises :
  AdvView.patch db_opel 1
    (Parsed (JDict [("registration_time", JStr "2000-01-01T00:00:00")]))
  = (raised DBAPIError, db_opel).
Proof. vm_compute; reflexivity. Qed.

(** ** Bodies that are not JSON, or not objects *)

(** C7, as the code has it.  A POST or PATCH whose body is not JSON raises
    the decoding error before any validation: no handler catches it, there
    is no 400 and no error list, and the store is untouched.  A body that
    is JSON but not an object raises a [TypeError] in the same way.  The
    400 with the list of field errors is the answer to a JSON object that
    fails its schema. *)
Theorem malformed_body_is_not_caught `{Bcrypt} (salt : string) (now : datetime)
    (st : db) (item_id : Z) :
  (UserView.post salt st Malformed = (raised JSONDecodeError, st)
   ∧ UserView.patch st item_id Malformed = (raised JSONDecodeError, st)
   ∧ AdvView.post now st Malformed = (raised JSONDecodeError, st)
   ∧ AdvView.patch st item_id Malformed = (raised JSONDecodeError, st))
  ∧ (∀ j, (∀ d, j ≠ JDict d) →
       UserView.post salt st (Parsed j) = (raised TypeError, st)
       ∧ UserView.patch st item_id (Parsed j) = (raised TypeError, st)
       ∧ AdvView.post now st (Parsed j) = (raised TypeError, st)
       ∧ AdvView.patch st item_id (Parsed j) = (raised TypeError, st))
  ∧ (∀ d errs,
       let bad_request :=
         json_response 400 (JDict [("error", JList (error_dict <$> errs))]) in
       (validate_CreateUserSchema d = ValidationError errs →
        errs ≠ [] ∧ UserView.post salt st (Parsed (JDict d)) = (bad_request, st))
       ∧ (validate_PatchUserSchema d = ValidationError errs →
          errs ≠ []
          ∧ UserView.patch st item_id (Parsed (JDict d)) = (bad_request, st))
       ∧ (validate_CreateAdvertisementSchema d = ValidationError errs →
          errs ≠ [] ∧ AdvView.post now st (Parsed (JDict d)) = (bad_request, st))
       ∧ (validate_PatchAdvertisementSchema d = ValidationError errs →
          errs ≠ []
          ∧ AdvView.patch st item_id (Parsed (JDict d)) = (bad_request, st))).
Proof.
  split; [repeat split |]. split.
  - intros j Hj. destruct j; try (repeat split; reflexivity).
    now destruct (Hj d).
  - intros d errs bad_request.
    split; [| split; [| split]]; intros E; split.
    + eauto using CreateUserSchema_errors.
    + unfold UserView.post. now rewrite E.
    + eauto using PatchUserSchema_errors.
    + unfold UserView.patch. now rewrite E.
    + eauto using CreateAdvertisementSchema_errors.
    + unfold AdvView.post. now rewrite E.
    + eauto using PatchAdvertisementSchema_errors.
    + unfold AdvView.patch. now rewrite E.
Qed.

Lemma malformed_body_is_not_caught_witness :
  let d := [("header", JList [JStr "Ford"])] in
  let errs := [{| loc := "header"; exc := StrError |}] in
  validate_PatchAdvertisementSchema d = ValidationError errs
  ∧ errs ≠ []
  ∧ AdvView.patch db_opel 1 (Parsed (JDict d))
    = (json_response 400 (JDict [("error", JList (error_dict <$> errs))]),
       db_opel)
  ∧ AdvView.patch db_opel 1 Malformed = (raised JSONDecodeError, db_opel).
Proof.
  cbv zeta.
  pose proof (malformed_body_is_not_caught "salt" noon db_opel 1)
    as ((_ & _ & _ & Hmal) & _ & Hbad).
  destruct (Hbad [("header", JList [JStr "Ford"])]
              [{| loc := "header"; exc := StrError |}])
    as (_ & _ & _ & Hpatch).
  destruct (Hpatch eq_refl) as (Hne & Hresp).
  exact (conj eq_refl (conj Hne (conj Hresp Hmal))).
Defined.

(** A PATCH whose body is not JSON is not answered with 400. *)
Lemma malformed_patch_is_not_400 :
  AdvView.patch db_opel 1 Malformed = (raised JSONDecodeError, db_opel)
  ∧ ¬ (∃ data st', AdvView.patch db_opel 1 Malformed
                   = (json_response 400 data, st'))
  ∧ UserView.post "salt" db_opel Malformed = (raised JSONDecodeError, db_opel)
  ∧ ¬ (∃ data st', UserView.post "salt" db_opel Malformed
                   = (json_response 400 data, st')).
Proof.
  repeat split; try reflexivity; intros (data & st' & E); discriminate E.
Qed.

(** A body with a member named [__pydantic_self__] does not reach the
    validation of the fields: the call of the schema raises. *)
Example reserved_member_raises :
  UserView.post "salt" db_user3
    (Parsed (JDict [("__pydantic_self__", JNull); ("username", JStr "user5")]))
  = (raised TypeError, db_user3)
  ∧ AdvView.patch db_opel 1 (Parsed (JDict [("__pydantic_self__", JInt 1)]))
    = (raised TypeError, db_opel).
Proof. split; reflexivity. Qed.

(** ** Deleting twice *)

(** C8, as the code has it.  The first DELETE of an existing advertisement,
    or of an existing user that no advertisement names as its owner,
    answers 200 success and removes exactly that row; the second DELETE of
    the same id answers 404 and leaves the store as the first left it. *)
Theorem delete_twice (st : db) (item_id : Z) :
  (∀ adv,
     advertisements st !! item_id = Some adv →
     let st1 := set_advertisements st (delete item_id (advertisements st)) in
     AdvView.delete st item_id = (success, st1)
     ∧ advertisements st1 !! item_id = None
     ∧ AdvView.delete st1 item_id
       = (json_response 404
            (JDict [("error", JStr "Advertisement does not exist")]), st1))
  ∧ (∀ user,
       users st !! item_id = Some user →
       unreferenced (advertisements st) item_id →
       let st1 := set_users st (delete item_id (users st)) in
       UserView.delete st item_id = (success, st1)
       ∧ users st1 !! item_id = None
       ∧ UserView.delete st1 item_id
         = (json_response 404 (JDict [("error", JStr "User does not exist")]),
            st1)).
Proof.
  split.
  - intros adv Hrow st1.
    pose proof (table_lookup_in_int32 _ _ _ Hrow) as Hin.
    assert (Hgone : advertisements st1 !! item_id = None)
      by apply table_lookup_delete_eq.
    repeat split; [| exact Hgone |].
    + unfold AdvView.delete. now rewrite (get_item_Some _ _ _ _ Hrow).
    + unfold AdvView.delete. now rewrite (get_item_None _ _ _ Hin Hgone).
  - intros user Hrow Hfree st1.
    pose proof (table_lookup_in_int32 _ _ _ Hrow) as Hin.
    assert (Hgone : users st1 !! item_id = None)
      by apply table_lookup_delete_eq.
    repeat split; [| exact Hgone |].
    + unfold UserView.delete, delete_user.
      rewrite (get_item_Some _ _ _ _ Hrow). now rewrite decide_True.
    + unfold UserView.delete. now rewrite (get_item_None _ _ _ Hin Hgone).
Qed.

Lemma delete_twice_witness :
  let st1 := set_advertisements db_opel (delete 1 (advertisements db_opel)) in
  let st2 := set_users st1 (delete 1 (users st1)) in
  (AdvView.delete db_opel 1 = (success, st1)
   ∧ advertisements st1 !! 1 = None
   ∧ AdvView.delete st1 1
     = (json_response 404
          (JDict [("error", JStr "Advertisement does not exist")]), st1))
  ∧ (unreferenced (advertisements st1) 1
     ∧ UserView.delete st1 1 = (success, st2)
     ∧ users st2 !! 1 = None
     ∧ UserView.delete st2 1
       = (json_response 404 (JDict [("error", JStr "User does not exist")]),
          st2)).
Proof.
  cbv zeta.
  assert (Hfree : unreferenced
                    (advertisements
                       (set_advertisements db_opel
                          (delete 1 (advertisements db_opel)))) 1).
  { intros i r Hi. simpl in Hi.
    apply table_lookup_delete_Some in Hi as (Hne & Hi).
    apply table_lookup_singleton_Some in Hi as (<- & _). congruence. }
  split.
  - exact (proj1 (delete_twice db_opel 1)
             {| header := "Opel Astra J"; description := "as new";
                registration_time := Some noon; owner := Some 1 |} eq_refl).
  - split; [exact Hfree |].
    exact (proj2 (delete_twice
                    (set_advertisements db_opel
                       (delete 1 (advertisements db_opel))) 1)
             {| username := "user3"; email := "user3@mail.com";
                password := Some example_hash |} eq_refl Hfree).
Defined.

(** The user of the examples owns an advertisement: DELETE on that user is
    refused by the foreign key, the handler raises, and the user stays. *)
Lemma delete_owner_raises :
  users db_opel !! 1
  = Some {| username := "user3"; email := "user3@mail.com";
            password := Some example_hash |}
  ∧ UserView.delete db_opel 1 = (raised IntegrityError, db_opel)
  ∧ ¬ (∃ st', UserView.delete db_opel 1 = (success, st'))
  ∧ UserView.get db_opel 1
    = (json_response 200
         (JDict [("username", JStr "user3"); ("email", JStr "user3@mail.com")]),
       db_opel).
Proof.
  assert (E : UserView.delete db_opel 1 = (raised IntegrityError, db_opel))
    by (vm_compute; reflexivity).
  repeat split; try reflexivity; try exact E.
  intros (st' & E'). rewrite E in E'. discriminate E'.
Qed.

(** ** Passwords *)



(** Unfold a handler in [E : handler ... = (r, st')] down to the statement
    it sends to the store. *)
Ltac leaves E :=
  unfold AdvView.get, AdvView.post, AdvView.patch, AdvView.delete,
    UserView.get, UserView.post, UserView.patch, UserView.delete in E;
  repeat match type of E with
    | context [get_item ?t ?i ?n] =>
        let Hget := fresh "Hget" in
        destruct (get_item t i n) eqn:Hget;
        [ apply get_item_inl in Hget
        | apply get_item_inr in Hget as [-> | ->] ]
    | context [insert_user ?st ?r] =>
        let Hins := fresh "Hins" in
        destruct (insert_user st r) as [[? | ?] ?] eqn:Hins
    | context [insert_advertisement ?now ?st ?v] =>
        let Hins := fresh "Hins" in
        destruct (insert_advertisement now st v) as [[? | ?] ?] eqn:Hins
    | context [update_user ?st ?i ?old ?o] =>
        let Hupd := fresh "Hupd" in
        destruct (update_user st i old o) as [[? |] ?] eqn:Hupd
    | context [update_advertisement ?st ?i ?old ?o] =>
        let Hupd := fresh "Hupd" in
        destruct (update_advertisement st i old o) as [[? |] ?] eqn:Hupd
    | context [delete_user ?st ?i] =>
        let Hdel := fresh "Hdel" in
        destruct (delete_user st i) as [[? |] ?] eqn:Hdel
    end;
  unfold BadRequest, NotFound, HTTPError, success in E;
  repeat case_match; simplify_eq.




(** ** Members that the schema does not declare *)

Lemma same_fields_CreateUserSchema d d' :
  same_fields ["username"; "email"; "password"] d d' →
  fields_CreateUserSchema d = fields_CreateUserSchema d'.
Proof.
  intros Hs. apply Forall_cons in Hs as (Hu & Hs).
  apply Forall_cons in Hs as (He & Hs). apply Forall_cons in Hs as (Hp & _).
  unfold fields_CreateUserSchema, required. now rewrite Hu, He, Hp.
Qed.

Lemma same_fields_CreateAdvertisementSchema d d' :
  same_fields ["header"; "description"; "owner"] d d' →
  fields_CreateAdvertisementSchema d = fields_CreateAdvertisementSchema d'.
Proof.
  intros Hs. apply Forall_cons in Hs as (Hh & Hs).
  apply Forall_cons in Hs as (Ht & Hs). apply Forall_cons in Hs as (Ho & _).
  unfold fields_CreateAdvertisementSchema, required. now rewrite Hh, Ht, Ho.
Qed.

(** C10, as the code has it.  Members that the create schema does not
    declare are dropped, unless one of them is named [__pydantic_self__]:
    two bodies without such a member that agree on the declared fields get
    the same answer and leave the same store.  For a body without such a
    member whose declared fields have the declared types, with any other
    members besides, POST answers 200 with the new id whenever bcrypt
    hashes the password and the store takes the row (texts without U+0000
    within the column lengths, a sequence that is not used up and gives an
    unused id, a username and an email not in use, an owner that is a
    user), and the row inserted is made of the declared fields alone. *)
Theorem create_ignores_extra_fields `{Bcrypt} (salt : string) (now : datetime)
    (st : db) (d : list (string * json)) :
  reserved d = false →
  (∀ d', reserved d' = false →
         same_fields ["username"; "email"; "password"] d d' →
         UserView.post salt st (Parsed (JDict d))
         = UserView.post salt st (Parsed (JDict d')))
  ∧ (∀ d', reserved d' = false →
           same_fields ["header"; "description"; "owner"] d d' →
           AdvView.post now st (Parsed (JDict d))
           = AdvView.post now st (Parsed (JDict d')))
  ∧ (∀ u e p hashed,
       user_payload d u e p →
       hashpw p salt = Some hashed →
       users_take st u e →
       UserView.post salt st (Parsed (JDict d))
       = (json_response 200 (JDict [("id", JInt (users_id_seq st))]),
          set_users (next_user_id st)
            (<[users_id_seq st :=
                 {| username := u; email := e; password := Some hashed |}]>
               (users st))))
  ∧ (∀ h t o,
       advertisement_payload d h t o →
       advertisements_take st h t o →
       AdvView.post now st (Parsed (JDict d))
       = (json_response 200 (JDict [("id", JInt (advertisements_id_seq st))]),
          set_advertisements (next_advertisement_id st)
            (<[advertisements_id_seq st :=
                 {| header := h; description := t;
                    registration_time := Some now; owner := Some o |}]>
               (advertisements st)))).
Proof.
  intros Hr. split; [| split; [| split]].
  - intros d' Hr' Hs. unfold UserView.post, validate_CreateUserSchema, instantiate.
    now rewrite Hr, Hr', (same_fields_CreateUserSchema _ _ Hs).
  - intros d' Hr' Hs.
    unfold AdvView.post, validate_CreateAdvertisementSchema, instantiate.
    now rewrite Hr, Hr', (same_fields_CreateAdvertisementSchema _ _ Hs).
  - intros u e p hashed Hd Hh (Hu & He & Hin & Hfresh & Hfu & Hfe).
    unfold UserView.post. rewrite (validate_user_payload _ _ _ _ Hr Hd). simpl.
    rewrite Hh, (insert_user_storable _ _ _ _ Hu He (hashpw_storable _ _ _ Hh) Hin).
    now rewrite decide_True by auto.
  - intros h t o Hd (Hh & Ht & Hin & Hfresh & Ho).
    unfold AdvView.post. rewrite (validate_advertisement_payload _ _ _ _ Hr Hd).
    destruct Ho as (owner_row & Ho).
    rewrite (insert_advertisement_storable _ _ _ _ _ Hh Ht
               (table_lookup_in_int32 _ _ _ Ho) Hin).
    rewrite decide_True; [reflexivity |].
    split; [exact Hfresh | simpl; eauto].
Qed.

Lemma create_ignores_extra_fields_witness :
  reserved user3_extra = false
  ∧ user_payload user3_extra "user3" "user3@mail.com" "12345"
  ∧ users_take empty_db "user3" "user3@mail.com"
  ∧ UserView.post "salt" empty_db (Parsed (JDict user3_extra))
    = (json_response 200 (JDict [("id", JInt 1)]),
       set_users (next_user_id empty_db)
         (<[1 := {| username := "user3"; email := "user3@mail.com";
                    password := Some example_hash |}]> (users empty_db)))
  ∧ UserView.post "salt" empty_db (Parsed (JDict user3_extra))
    = UserView.post "salt" empty_db (Parsed (JDict user3)).
Proof.
  assert (Hr : reserved user3_extra = false) by reflexivity.
  assert (Hd : user_payload user3_extra "user3" "user3@mail.com" "12345")
    by (repeat split; reflexivity).
  assert (Ht : users_take empty_db "user3" "user3@mail.com").
  { repeat split; try (simpl; lia); try reflexivity; apply table_Forall_empty. }
  assert (Hs : same_fields ["username"; "email"; "password"] user3_extra user3)
    by (repeat constructor).
  pose proof (create_ignores_extra_fields "salt" noon empty_db user3_extra Hr)
    as (Hsame & _ & Hpost & _).
  exact (conj Hr (conj Hd (conj Ht
           (conj (Hpost "user3" "user3@mail.com" "12345" example_hash
                    Hd eq_refl Ht)
                 (Hsame user3 eq_refl Hs))))).
Defined.

(** The same body sent again: every declared field has its declared type,
    there are extra members, and the answer is 400, not 200. *)
Lemma well_typed_create_refused :
  user_payload user3_extra "user3" "user3@mail.com" "12345"
  ∧ UserView.post "salt" db_user3 (Parsed (JDict user3_extra))
    = (json_response 400 (JDict [("error", JStr "user already exists")]),
       next_user_id db_user3)
  ∧ ¬ (∃ N st', UserView.post "salt" db_user3 (Parsed (JDict user3_extra))
                = (json_response 200 (JDict [("id", JInt N)]), st')).
Proof.
  assert (E : UserView.post "salt" db_user3 (Parsed (JDict user3_extra))
              = (json_response 400 (JDict [("error", JStr "user already exists")]),
                 next_user_id db_user3))
    by (vm_compute; reflexivity).
  split; [repeat split; reflexivity |]. split; [exact E |].
  intros (N & st' & E'). rewrite E in E'. discriminate E'.
Qed.

(** ** The end-to-end run of the specification *)

(** POST a user, GET it, PATCH its name, GET again, DELETE, GET: 200 with
    the id, the two public fields, success, the new name with the old
    email, success, 404. *)
Example end_to_end :
  let s1 := (UserView.post "salt" empty_db (Parsed (JDict user3))).2 in
  let s2 := (UserView.patch s1 1 (Parsed (JDict [("username", JStr "user101")]))).2 in
  let s3 := (UserView.delete s2 1).2 in
  (UserView.post "salt" empty_db (Parsed (JDict user3))).1
  = json_response 200 (JDict [("id", JInt 1)])
  ∧ (UserView.get s1 1).1
    = json_response 200
        (JDict [("username", JStr "user3"); ("email", JStr "user3@mail.com")])
  ∧ (UserView.patch s1 1 (Parsed (JDict [("username", JStr "user101")]))).1
    = success
  ∧ (UserView.get s2 1).1
    = json_response 200
        (JDict [("username", JStr "user101"); ("email", JStr "user3@mail.com")])
  ∧ (UserView.delete s2 1).1 = success
  ∧ (UserView.get s3 1).1
    = json_response 404 (JDict [("error", JStr "User does not exist")]).
Proof. vm_compute. repeat split; reflexivity. Qed.

(** The conversions on some values. *)
Example int_of_str_examples :
  int_of_str "6" = Some 6 ∧ int_of_str " -1_000 " = Some (-1000)
  ∧ int_of_str "six" = None ∧ int_of_str "1__0" = None
  ∧ int_of_str "" = None ∧ int_of_str "6.0" = None
  ∧ int_of_str "0_1" = Some 1 ∧ int_of_str "+1_0" = Some 10
  ∧ int_of_str "+ 1" = None ∧ int_of_str "-" = None
  ∧ int_of_str (String "133" "1") = Some 1
  ∧ int_of_str (String "1" (String "160" "")) = Some 1
  ∧ int_of_str (String "028" "1") = None
  ∧ int_of_str (String "1" (String "000" "")) = None
  ∧ int_of_str (String.concat "" (replicate 4301 "1")) = None
  ∧ int_of_str (spaces 4300 ++ "1") = Some 1
  ∧ int_validator (JStr (spaces 4300 ++ "1")) = inr IntegerError.
Proof. repeat split; vm_compute; reflexivity. Qed.

Example isoformat_examples :
  isoformat noon = "2023-04-09T12:00:00"
  ∧ isoformat {| year := 987; month := 12; day := 1; hour := 7; minute := 5;
                 second := 9; microsecond := 120 |}
    = "0987-12-01T07:05:09.000120".
Proof. split; vm_compute; reflexivity. Qed.

(** * Further properties of the handlers *)

(** ** The responses that the handlers can give *)

(** X1.  Every JSON response of the eight routes has one of three shapes:
    status 200 with a body that has no member [error]; status 400 with
    [{"error": m}] where [m] is a non-empty list of field errors or one of
    the two "already exists" texts; status 404 with [{"error": m}] where
    [m] is one of the two "does not exist" texts. *)
Theorem response_shapes `{Bcrypt} (req : request) (st st' : db)
    (status : Z) (data : json) :
  app req st = (json_response status data, st') →
  (status = 200 ∧ has_key "error" data = false)
  ∨ (status = 400
     ∧ ((∃ errs, errs ≠ [] ∧ data = JDict [("error", errors errs)])
        ∨ data = JDict [("error", JStr "user already exists")]
        ∨ data = JDict [("error", JStr "Advertisement already exists")]))
  ∨ (status = 404
     ∧ (data = JDict [("error", JStr "User does not exist")]
        ∨ data = JDict [("error", JStr "Advertisement does not exist")])).
Proof.
  intros E.
  destruct req as [i | i b | i | t b | i | i b | i | salt b]; simpl in E;
    leaves E;
    first
      [ left; split; reflexivity
      | right; right; split; [reflexivity |]; (left + right); reflexivity
      | right; left; split; [reflexivity |]; right; (left + right); reflexivity
      | right; left; split; [reflexivity |]; left; eexists; split;
        [| reflexivity];
        eauto using CreateUserSchema_errors, PatchUserSchema_errors,
          CreateAdvertisementSchema_errors, PatchAdvertisementSchema_errors ].
Qed.

Lemma response_shapes_witness :
  (200 = 200 ∧ has_key "error" (JDict [("id", JInt 1)]) = false)
  ∨ (200 = 400
     ∧ ((∃ errs, errs ≠ [] ∧ JDict [("id", JInt 1)] = JDict [("error", errors errs)])
        ∨ JDict [("id", JInt 1)] = JDict [("error", JStr "user already exists")]
        ∨ JDict [("id", JInt 1)]
          = JDict [("error", JStr "Advertisement already exists")]))
  ∨ (200 = 404
     ∧ (JDict [("id", JInt 1)] = JDict [("error", JStr "User does not exist")]
        ∨ JDict [("id", JInt 1)]
          = JDict [("error", JStr "Advertisement does not exist")])).
Proof.
  refine (response_shapes (POST_user "salt" (Parsed (JDict user3))) empty_db
            db_user3 200 (JDict [("id", JInt 1)]) _).
  vm_compute; reflexivity.
Defined.

(** ** Requests that fail *)

Lemma update_user_Some st user_id old o e st' :
  update_user st user_id old o = (Some e, st') → st' = st.
Proof. unfold update_user. intros E. repeat case_match; simplify_eq; reflexivity. Qed.

Lemma update_advertisement_Some st adv_id old o e st' :
  update_advertisement st adv_id old o = (Some e, st') → st' = st.
Proof.
  unfold update_advertisement. intros E.
  repeat case_match; simplify_eq; reflexivity.
Qed.

Lemma delete_user_Some st user_id e st' :
  delete_user st user_id = (Some e, st') → st' = st.
Proof. unfold delete_user. intros E. case_match; simplify_eq; reflexivity. Qed.

(** X2.  A request that is not answered with status 200 (a 400, a 404 or an
    exception that no handler catches) leaves both tables as they were. *)
Theorem failure_changes_no_table `{Bcrypt} (req : request) (st st' : db)
    (r : outcome) :
  app req st = (r, st') →
  ¬ is_200 r →
  users st' = users st ∧ advertisements st' = advertisements st.
Proof.
  intros E Hr.
  destruct req as [i | i b | i | t b | i | i b | i | salt b]; simpl in E;
    leaves E; try (split; reflexivity); try (now destruct Hr);
    repeat match goal with
      | Hx : update_user _ _ _ _ = (Some _, _) |- _ =>
          apply update_user_Some in Hx as ->
      | Hx : update_advertisement _ _ _ _ = (Some _, _) |- _ =>
          apply update_advertisement_Some in Hx as ->
      | Hx : delete_user _ _ = (Some _, _) |- _ =>
          apply delete_user_Some in Hx as ->
      | Hx : insert_user _ _ = (inr _, _) |- _ =>
          apply insert_user_inr in Hx
      | Hx : insert_advertisement _ _ _ = (inr _, _) |- _ =>
          apply insert_advertisement_inr in Hx as (? & ?)
      end; auto.
  all: unfold delete_advertisement in *; simplify_eq.
Qed.

Lemma failure_changes_no_table_witness :
  ¬ is_200 (json_response 400 (JDict [("error", JStr "user already exists")]))
  ∧ users (next_user_id db_user3) = users db_user3
  ∧ advertisements (next_user_id db_user3) = advertisements db_user3.
Proof.
  assert (Hr : ¬ is_200 (json_response 400
                           (JDict [("error", JStr "user already exists")])))
    by (simpl; tauto).
  split; [exact Hr |].
  refine (failure_changes_no_table (POST_user "salt" (Parsed (JDict user3)))
            db_user3 (next_user_id db_user3) _ _ Hr).
  vm_compute; reflexivity.
Defined.

(** ** One statement per request *)

Lemma app_effect `{Bcrypt} (req : request) (st st' : db) (r : outcome) :
  app req st = (r, st') → effect st st'.
Proof.
  intros E.
  destruct req as [i | i b | i | t b | i | i b | i | salt b]; simpl in E;
    leaves E;
    repeat match goal with
      | Hx : update_user _ _ _ _ = (Some _, _) |- _ =>
          apply update_user_Some in Hx as ->
      | Hx : update_advertisement _ _ _ _ = (Some _, _) |- _ =>
          apply update_advertisement_Some in Hx as ->
      | Hx : delete_user _ _ = (Some _, _) |- _ =>
          apply delete_user_Some in Hx as ->
      end;
    eauto using effect.
Qed.

(** ** What the statements check *)

Lemma update_user_checked st user_id old o st' :
  update_user st user_id old o = (None, st') →
  ∃ new,
    st' = set_users st (<[user_id := new]> (users st))
    ∧ (username new = username old
       ∨ username_free (users st) (Some user_id) (username new))
    ∧ (email new = email old
       ∨ email_free (users st) (Some user_id) (email new)).
Proof.
  unfold update_user. intros E. repeat case_match; simplify_eq.
  match goal with a : _ ∧ _ |- _ => destruct a as (? & ?) end.
  eexists; split; [reflexivity |]. simpl. auto.
Qed.

Lemma update_advertisement_checked st adv_id old o st' :
  update_advertisement st adv_id old o = (None, st') →
  ∃ new,
    st' = set_advertisements st (<[adv_id := new]> (advertisements st))
    ∧ (owner new = owner old ∨ owner_ok (users st) (owner new)).
Proof.
  unfold update_advertisement. intros E. repeat case_match; simplify_eq.
  eexists; split; [reflexivity |]. simpl. auto.
Qed.

Lemma delete_user_checked st user_id st' :
  delete_user st user_id = (None, st') →
  unreferenced (advertisements st) user_id
  ∧ st' = set_users st (delete user_id (users st)).
Proof. unfold delete_user. intros E. case_match; simplify_eq. auto. Qed.

(** ** The unique columns *)

Lemma effect_unique_users st st' :
  effect st st' → unique_users st → unique_users st'.
Proof.
  intros Heff Hu. destruct Heff as
    [ | r res st' Hins | user_id old o st' Hold Hupd | user_id old st' Hold Hdel
      | now v res st' Hins | adv_id old o st' Hold Hupd
      | adv_id old st' Hold Hdel ]; try exact Hu.
  - destruct res as [new_id | e].
    + apply insert_user_checked in Hins
        as (row & _ & _ & Hfresh & _ & Hfu & Hfe & ->).
      intros i j u v Hi Hj Hsame. simpl in Hi, Hj.
      apply table_lookup_insert_Some in Hi as [(<- & <-) | (Hni & Hi)];
        apply table_lookup_insert_Some in Hj as [(<- & <-) | (Hnj & Hj)];
        try reflexivity.
      * exfalso. destruct (Hfu j v Hj) as [? | ?]; [discriminate |].
        destruct (Hfe j v Hj) as [? | ?]; [discriminate |].
        destruct Hsame; congruence.
      * exfalso. destruct (Hfu i u Hi) as [? | ?]; [discriminate |].
        destruct (Hfe i u Hi) as [? | ?]; [discriminate |].
        destruct Hsame; congruence.
      * eauto.
    + apply insert_user_refused in Hins as [-> | ->]; exact Hu.
  - apply update_user_checked in Hupd as (new & -> & Hfu & Hfe).
    assert (Hother : ∀ j v, users st !! j = Some v → j ≠ user_id →
              ¬ (username new = username v ∨ email new = email v)).
    { intros j v Hj Hne [Hs | Hs].
      - destruct Hfu as [Hfu | Hfu].
        + apply Hne. apply (Hu j user_id v old Hj Hold). left. congruence.
        + destruct (Hfu j v Hj) as [? | ?]; congruence.
      - destruct Hfe as [Hfe | Hfe].
        + apply Hne. apply (Hu j user_id v old Hj Hold). right. congruence.
        + destruct (Hfe j v Hj) as [? | ?]; congruence. }
    intros i j u v Hi Hj Hsame. simpl in Hi, Hj.
    apply table_lookup_insert_Some in Hi as [(<- & <-) | (Hni & Hi)];
      apply table_lookup_insert_Some in Hj as [(<- & <-) | (Hnj & Hj)];
      try reflexivity.
    + exfalso. apply (Hother j v Hj); [congruence | exact Hsame].
    + exfalso. apply (Hother i u Hi); [congruence |].
      destruct Hsame; [left | right]; congruence.
    + eauto.
  - apply delete_user_checked in Hdel as (_ & ->).
    intros i j u v Hi Hj Hsame. simpl in Hi, Hj.
    apply table_lookup_delete_Some in Hi as (_ & Hi).
    apply table_lookup_delete_Some in Hj as (_ & Hj). eauto.
  - destruct res as [new_id | e].
    + apply insert_advertisement_checked in Hins
        as (row & _ & _ & _ & _ & _ & _ & _ & _ & ->). exact Hu.
    + apply insert_advertisement_refused in Hins as [-> | ->]; exact Hu.
  - apply update_advertisement_checked in Hupd as (new & -> & _). exact Hu.
  - unfold delete_advertisement in Hdel. simplify_eq. exact Hu.
Qed.

Lemma run_cons `{Bcrypt} req reqs st :
  run (req :: reqs) st = run reqs (app req st).2.
Proof. reflexivity. Qed.

Lemma run_effect `{Bcrypt} (P : db → Prop) :
  (∀ st st', effect st st' → P st → P st') →
  ∀ reqs st, P st → P (run reqs st).
Proof.
  intros Hstep reqs. induction reqs as [| req reqs IH]; intros st HP.
  - exact HP.
  - rewrite run_cons. apply IH.
    destruct (app req st) as [r st'] eqn:E. simpl.
    eapply Hstep; eauto using app_effect.
Qed.

(** X3.  The unique columns hold along every run: if no two users share a
    username or an email, the same is true after any sequence of
    requests. *)
Theorem unique_columns_are_kept `{Bcrypt} (reqs : list request) (st : db) :
  unique_users st → unique_users (run reqs st).
Proof. apply (run_effect unique_users), effect_unique_users. Qed.

Lemma unique_users_empty : unique_users empty_db.
Proof. intros i j u v Hi. simpl in Hi. now rewrite table_lookup_empty in Hi. Qed.

Lemma unique_columns_are_kept_witness :
  unique_users empty_db
  ∧ unique_users
      (run [POST_user "salt" (Parsed (JDict user3));
            POST_user "pepper" (Parsed (JDict user3_extra));
            PATCH_user 1 (Parsed (JDict [("email", JStr "new@mail.com")]))]
         empty_db).
Proof.
  split; [exact unique_users_empty |].
  exact (unique_columns_are_kept _ empty_db unique_users_empty).
Defined.

(** ** The foreign key *)

Lemma owner_ok_insert m i u o :
  owner_ok m o → owner_ok (<[i := u]> m) o.
Proof.
  destruct o as [k |]; simpl; [| auto].
  intros (x & Hk). destruct (decide (i = k)) as [-> | Hne].
  - rewrite table_lookup_insert_eq by eauto using table_lookup_in_int32. eauto.
  - rewrite table_lookup_insert_ne by exact Hne. eauto.
Qed.

Lemma effect_owners_exist st st' :
  effect st st' → owners_exist st → owners_exist st'.
Proof.
  intros Heff Ho. destruct Heff as
    [ | r res st' Hins | user_id old o st' Hold Hupd | user_id old st' Hold Hdel
      | now v res st' Hins | adv_id old o st' Hold Hupd
      | adv_id old st' Hold Hdel ]; try exact Ho.
  - destruct res as [new_id | e].
    + apply insert_user_checked in Hins
        as (row & _ & _ & _ & _ & _ & _ & ->).
      intros k a Hk. simpl in *. apply owner_ok_insert. exact (Ho k a Hk).
    + apply insert_user_refused in Hins as [-> | ->]; exact Ho.
  - apply update_user_checked in Hupd as (new & -> & _).
    intros k a Hk. simpl in *. apply owner_ok_insert. exact (Ho k a Hk).
  - apply delete_user_checked in Hdel as (Hfree & ->).
    intros k a Hk. simpl in Hk.
    specialize (Ho k a Hk). specialize (Hfree k a Hk). simpl in *.
    destruct (owner a) as [w |]; simpl in *; [| exact I].
    rewrite table_lookup_delete_ne by congruence. exact Ho.
  - destruct res as [new_id | e].
    + apply insert_advertisement_checked in Hins
        as (row & _ & _ & _ & _ & _ & _ & Hrow & Hown & ->).
      unfold owners_exist. simpl. apply table_Forall_insert; [| exact Ho].
      rewrite Hrow. exact Hown.
    + apply insert_advertisement_refused in Hins as [-> | ->]; exact Ho.
  - apply update_advertisement_checked in Hupd as (new & -> & Hown).
    unfold owners_exist. simpl. apply table_Forall_insert; [| exact Ho].
    destruct Hown as [-> | Hown]; [exact (Ho adv_id old Hold) | exact Hown].
  - unfold delete_advertisement in Hdel. simplify_eq.
    unfold owners_exist. simpl. apply table_Forall_delete. exact Ho.
Qed.

(** X4.  The foreign key holds along every run: if the owner of every
    advertisement is a user of the store (or NULL), the same is true after
    any sequence of requests; in particular no DELETE leaves an
    advertisement without its owner. *)
Theorem owners_are_kept `{Bcrypt} (reqs : list request) (st : db) :
  owners_exist st → owners_exist (run reqs st).
Proof. apply (run_effect owners_exist), effect_owners_exist. Qed.

Lemma owners_exist_db_opel : owners_exist db_opel.
Proof.
  intros k a Hk.
  apply table_lookup_singleton_Some in Hk as (_ & <-). simpl. eauto.
Qed.

Lemma owners_are_kept_witness :
  owners_exist db_opel
  ∧ owners_exist
      (run [DELETE_user 1; PATCH_advertisement 1 (Parsed (JDict [("owner", JStr "7")]));
            POST_advertisement noon
              (Parsed (JDict [("header", JStr "Ford"); ("description", JStr "new");
                              ("owner", JInt 7)]))]
         db_opel).
Proof.
  split; [exact owners_exist_db_opel |].
  exact (owners_are_kept _ db_opel owners_exist_db_opel).
Defined.

(** ** The sequences *)

Ltac effect_cases Heff :=
  destruct Heff as
    [ | r res st' Hins | user_id old o st' Hold Hupd | user_id old st' Hold Hdel
      | now v res st' Hins | adv_id old o st' Hold Hupd
      | adv_id old st' Hold Hdel ];
  [ | destruct res as [new_id | e];
      [ apply insert_user_checked in Hins
          as (row & -> & _ & _ & _ & _ & _ & ->)
      | apply insert_user_refused in Hins as [-> | ->] ]
    | apply update_user_checked in Hupd as (new & -> & _)
    | apply delete_user_checked in Hdel as (_ & ->)
    | destruct res as [new_id | e];
      [ apply insert_advertisement_checked in Hins
          as (row & -> & _ & _ & _ & _ & _ & _ & _ & ->)
      | apply insert_advertisement_refused in Hins as [-> | ->] ]
    | apply update_advertisement_checked in Hupd as (new & -> & _)
    | unfold delete_advertisement in Hdel; simplify_eq ].

Lemma effect_sequences st st' :
  effect st st' →
  (users_id_seq st ≤ users_id_seq st')%Z
  ∧ (advertisements_id_seq st ≤ advertisements_id_seq st')%Z.
Proof. intros Heff. effect_cases Heff; simpl; lia. Qed.

Lemma effect_sequences_ahead st st' :
  effect st st' → sequences_ahead st → sequences_ahead st'.
Proof.
  intros Heff (Hu & Ha).
  effect_cases Heff; (split; [intros i x Hi | intros i x Hi]); simpl in *;
    try (apply table_lookup_insert_Some in Hi as [(<- & _) | (_ & Hi)]);
    try (apply table_lookup_delete_Some in Hi as (_ & Hi));
    try lia;
    try (specialize (Hu _ _ Hi); lia);
    try (specialize (Ha _ _ Hi); lia);
    eauto.
Qed.

Lemma run_sequences `{Bcrypt} reqs st :
  (users_id_seq st ≤ users_id_seq (run reqs st))%Z
  ∧ (advertisements_id_seq st ≤ advertisements_id_seq (run reqs st))%Z.
Proof.
  apply (run_effect
           (λ s, (users_id_seq st ≤ users_id_seq s)%Z
                 ∧ (advertisements_id_seq st ≤ advertisements_id_seq s)%Z));
    [| lia].
  intros s s' Heff (Hu & Ha). apply effect_sequences in Heff. lia.
Qed.

Lemma UserView_post_id `{Bcrypt} salt st data N st' :
  UserView.post salt st data
  = (json_response 200 (JDict [("id", JInt N)]), st') →
  N = users_id_seq st ∧ users_id_seq st' = N + 1.
Proof.
  destruct data as [| []]; try discriminate. intros E.
  apply UserView_post_200 in E as (v & hashed & _ & _ & Hins).
  apply insert_user_checked in Hins as (row & -> & _ & _ & _ & _ & _ & ->).
  auto.
Qed.

Lemma AdvView_post_id now st data N st' :
  AdvView.post now st data
  = (json_response 200 (JDict [("id", JInt N)]), st') →
  N = advertisements_id_seq st ∧ advertisements_id_seq st' = N + 1.
Proof.
  destruct data as [| []]; try discriminate. intros E.
  apply AdvView_post_200 in E as (v & _ & Hins).
  apply insert_advertisement_checked in Hins
    as (row & -> & _ & _ & _ & _ & _ & _ & _ & ->).
  auto.
Qed.

(** X5.  Ids are not given twice: of two POSTs that both answer 200, with
    any requests in between (DELETEs included), the later one returns the
    greater id. *)
Theorem ids_are_not_reused `{Bcrypt} (reqs : list request) (st st1 st2 : db)
    (N N' : Z) :
  (∀ salt salt' data data',
     UserView.post salt st data
     = (json_response 200 (JDict [("id", JInt N)]), st1) →
     UserView.post salt' (run reqs st1) data'
     = (json_response 200 (JDict [("id", JInt N')]), st2) →
     N < N')
  ∧ (∀ now now' data data',
       AdvView.post now st data
       = (json_response 200 (JDict [("id", JInt N)]), st1) →
       AdvView.post now' (run reqs st1) data'
       = (json_response 200 (JDict [("id", JInt N')]), st2) →
       N < N').
Proof.
  pose proof (run_sequences reqs st1) as (Hu & Ha).
  split.
  - intros salt salt' data data' E1 E2.
    apply UserView_post_id in E1 as (-> & E1), E2 as (-> & _). lia.
  - intros now now' data data' E1 E2.
    apply AdvView_post_id in E1 as (-> & E1), E2 as (-> & _). lia.
Qed.

Lemma ids_are_not_reused_witness :
  let st1 := db_user3 in
  let reqs := [DELETE_user 1] in
  let st2 := (UserView.post "salt" (run reqs st1) (Parsed (JDict user3))).2 in
  UserView.post "salt" empty_db (Parsed (JDict user3))
  = (json_response 200 (JDict [("id", JInt 1)]), st1)
  ∧ UserView.post "salt" (run reqs st1) (Parsed (JDict user3))
    = (json_response 200 (JDict [("id", JInt 2)]), st2)
  ∧ 1 < 2.
Proof.
  cbv zeta.
  assert (E1 : UserView.post "salt" empty_db (Parsed (JDict user3))
               = (json_response 200 (JDict [("id", JInt 1)]), db_user3))
    by (vm_compute; reflexivity).
  assert (E2 : UserView.post "salt" (run [DELETE_user 1] db_user3)
                 (Parsed (JDict user3))
               = (json_response 200 (JDict [("id", JInt 2)]),
                  (UserView.post "salt" (run [DELETE_user 1] db_user3)
                     (Parsed (JDict user3))).2))
    by (vm_compute; reflexivity).
  exact (conj E1 (conj E2
           (proj1 (ids_are_not_reused [DELETE_user 1] empty_db db_user3 _ 1 2)
              _ _ _ _ E1 E2))).
Defined.

(** X6.  The sequences stay ahead of the tables: if every id in use is
    below the sequence of its table, that is still so after any sequence of
    requests, and then the id that the next POST will draw is not in use. *)
Theorem next_id_is_unused `{Bcrypt} (reqs : list request) (st : db) :
  sequences_ahead st →
  sequences_ahead (run reqs st)
  ∧ users (run reqs st) !! users_id_seq (run reqs st) = None
  ∧ advertisements (run reqs st) !! advertisements_id_seq (run reqs st) = None.
Proof.
  intros Hst.
  assert (Hrun : sequences_ahead (run reqs st))
    by (revert Hst; apply (run_effect sequences_ahead), effect_sequences_ahead).
  split; [exact Hrun |]. destruct Hrun as (Hu & Ha). split.
  - destruct (users (run reqs st) !! users_id_seq (run reqs st)) as [u |] eqn:E;
      [| reflexivity].
    specialize (Hu _ _ E). lia.
  - destruct (advertisements (run reqs st)
                !! advertisements_id_seq (run reqs st)) as [a |] eqn:E;
      [| reflexivity].
    specialize (Ha _ _ E). lia.
Qed.

Lemma sequences_ahead_empty : sequences_ahead empty_db.
Proof.
  split; intros i x Hi; simpl in Hi; now rewrite table_lookup_empty in Hi.
Qed.

Lemma next_id_is_unused_witness :
  let st := run [POST_user "salt" (Parsed (JDict user3)); DELETE_user 1] empty_db in
  sequences_ahead empty_db
  ∧ sequences_ahead st
  ∧ users st !! users_id_seq st = None
  ∧ advertisements st !! advertisements_id_seq st = None.
Proof.
  cbv zeta. split; [exact sequences_ahead_empty |].
  exact (next_id_is_unused _ empty_db sequences_ahead_empty).
Defined.

(** X7.  From the empty tables of a fresh database, every store that any
    sequence of requests can reach is consistent: usernames and emails are
    unique, every owner is a user, and every id is below its sequence. *)
Theorem reachable_stores_are_consistent `{Bcrypt} (reqs : list request) :
  consistent (run reqs empty_db).
Proof.
  apply (run_effect consistent).
  - intros st st' Heff (Hu & Ho & Hs).
    split; [| split];
      eauto using effect_unique_users, effect_owners_exist,
        effect_sequences_ahead.
  - split; [exact unique_users_empty |]. split; [| exact sequences_ahead_empty].
    apply table_Forall_empty.
Qed.

(** ** Patches *)



(** What a PATCH that answered success has stored for the user. *)
Lemma UserView_patch_success st st' user_id user d :
  users st !! user_id = Some user →
  UserView.patch st user_id (Parsed (JDict d)) = (success, st') →
  ∃ p row,
    validate_PatchUserSchema d = Model p
    ∧ stored_User (patched_User user p) row
    ∧ users st' !! user_id = Some row.
Proof.
  intros Hrow E. unfold UserView.patch in E.
  destruct (validate_PatchUserSchema d) as [p | errs |] eqn:Hp;
    try discriminate.
  rewrite (get_item_Some _ _ _ _ Hrow) in E.
  destruct (set_items_User p user) as (Eu & Ee & Ep).
  destruct (update_user_patched st user_id user _ (patched_User user p) Eu Ee Ep)
    as (_ & Hany).
  destruct (update_user _ _ _ _) as [e st1] eqn:Hupd.
  destruct (Hany _ _ eq_refl) as [(-> & row & Hs & ->) | (x & -> & ->)];
    [| discriminate].
  injection E as <-. exists p, row. repeat split; try apply Hs.
  simpl. apply table_lookup_insert_eq. eauto using table_lookup_in_int32.
Qed.



(** X9.  An advertisement whose owner is not the id of a user is refused by
    the foreign key, and POST reports it with the text of a duplicate: 400
    "Advertisement already exists".  Nothing is inserted, and the sequence
    has given a number.  (The payload has no member named
    [__pydantic_self__], its texts have no U+0000, the header is within
    its 64 characters, the owner is within the range of the Integer
    column, and the sequence is not used up.) *)
Theorem unknown_owner_is_reported_as_duplicate (now : datetime) (st : db)
    (d : list (string * json)) (h t : string) (o : Z) :
  reserved d = false →
  advertisement_payload d h t o →
  storable (Some 64%nat) h →
  storable None t →
  in_int32 o = true →
  in_int32 (advertisements_id_seq st) = true →
  users st !! o = None →
  AdvView.post now st (Parsed (JDict d))
  = (json_response 400 (JDict [("error", JStr "Advertisement already exists")]),
     next_advertisement_id st).
Proof.
  intros Hr Hd Hh Ht Hin Hseq Ho. unfold AdvView.post.
  rewrite (validate_advertisement_payload _ _ _ _ Hr Hd).
  rewrite (insert_advertisement_storable _ _ _ _ _ Hh Ht Hin Hseq).
  rewrite decide_False; [reflexivity |].
  intros (_ & Hown). simpl in Hown. rewrite Ho in Hown.
  now apply is_Some_None in Hown.
Qed.

Lemma unknown_owner_is_reported_as_duplicate_witness :
  AdvView.post noon db_user3
    (Parsed (JDict [("header", JStr "Opel Astra J"); ("description", JStr "as new");
                    ("owner", JInt 6)]))
  = (json_response 400 (JDict [("error", JStr "Advertisement already exists")]),
     next_advertisement_id db_user3).
Proof.
  refine (unknown_owner_is_reported_as_duplicate noon db_user3 _
            "Opel Astra J" "as new" 6 _ _ _ _ _ _ _).
  - reflexivity.
  - repeat split; reflexivity.
  - split; [reflexivity | simpl; lia].
  - split; [reflexivity | exact I].
  - reflexivity.
  - reflexivity.
  - reflexivity.
Defined.

(** An owner beyond the range of the Integer column is not reported as a
    duplicate: the driver refuses it, POST raises, and the sequence has
    given no number. *)
Example owner_beyond_int32_raises :
  AdvView.post noon db_user3
    (Parsed (JDict [("header", JStr "Opel Astra J"); ("description", JStr "as new");
                    ("owner", JInt 2147483648)]))
  = (raised DBAPIError, db_user3).
Proof. vm_compute; reflexivity. Qed.

Lemma optional_blank d name :
  blank name d →
  ∃ v, optional str_validator name d = inl v ∧ truthy v = false.
Proof.
  unfold blank, optional.
  destruct (dict_get name d) as [[| | | | [|] | |] |]; simpl; try tauto; eauto.
Qed.

Lemma patched_blank old v : truthy v = false → patched old v = old.
Proof. destruct v as [[|] |]; simpl; congruence. Qed.

Lemma patched_opt_blank old v : truthy v = false → patched_opt old v = old.
Proof. destruct v as [[|] |]; simpl; congruence. Qed.

Lemma set_users_id st i u :
  users st !! i = Some u → set_users st (<[i := u]> (users st)) = st.
Proof.
  intros E. destruct st. unfold set_users. simpl in *.
  now rewrite (table_insert_id _ _ _ E).
Qed.

Lemma set_advertisements_id st i a :
  advertisements st !! i = Some a →
  set_advertisements st (<[i := a]> (advertisements st)) = st.
Proof.
  intros E. destruct st. unfold set_advertisements. simpl in *.
  now rewrite (table_insert_id _ _ _ E).
Qed.

(** X10.  A PATCH that says nothing changes nothing: when the body has no
    member named [__pydantic_self__] and every field of the patch schema
    is absent from it, [null] or the empty string (the body [{}] included),
    PATCH of an existing row answers success and the store is exactly as
    before. *)
Theorem blank_patch_changes_nothing (st : db) (item_id : Z)
    (d : list (string * json)) :
  reserved d = false →
  (∀ user,
     users st !! item_id = Some user →
     blank "username" d → blank "email" d → blank "password" d →
     UserView.patch st item_id (Parsed (JDict d)) = (success, st))
  ∧ (∀ adv,
       advertisements st !! item_id = Some adv →
       blank "header" d → blank "description" d → blank "owner" d →
       blank "registration_time" d →
       AdvView.patch st item_id (Parsed (JDict d)) = (success, st)).
Proof.
  intros Hr. split.
  - intros user Hrow Bu Be Bp.
    destruct (optional_blank _ _ Bu) as (vu & Eu & Tu).
    destruct (optional_blank _ _ Be) as (ve & Ee & Te).
    destruct (optional_blank _ _ Bp) as (vp & Ep & Tp).
    unfold UserView.patch, validate_PatchUserSchema, instantiate,
      fields_PatchUserSchema.
    rewrite Hr, Eu, Ee, Ep, (get_item_Some _ _ _ _ Hrow).
    set (p := {| pu_username := vu; pu_email := ve; pu_password := vp |}).
    destruct (set_items_User p user) as (Hu & He & Hp).
    destruct (update_user_patched st item_id user _ (patched_User user p)
                Hu He Hp) as (Hok & _).
    assert (Hsame : patched_User user p = user).
    { unfold patched_User. simpl.
      rewrite (patched_blank _ _ Tu), (patched_blank _ _ Te),
        (patched_opt_blank _ _ Tp). now destruct user. }
    rewrite Hsame in Hok. rewrite Hok.
    + now rewrite (set_users_id _ _ _ Hrow).
    + repeat split; left; reflexivity.
  - intros adv Hrow Bh Bt Bo Br.
    destruct (optional_blank _ _ Bh) as (vh & Eh & Th).
    destruct (optional_blank _ _ Bt) as (vt & Et & Tt).
    destruct (optional_blank _ _ Bo) as (vo & Eo & To).
    destruct (optional_blank _ _ Br) as (vr & Er & Tr).
    unfold AdvView.patch, validate_PatchAdvertisementSchema, instantiate,
      fields_PatchAdvertisementSchema.
    rewrite Hr, Eh, Et, Eo, Er, (get_item_Some _ _ _ _ Hrow).
    set (p := {| pa_header := vh; pa_description := vt; pa_owner := vo;
                 pa_registration_time := vr |}).
    destruct (set_items_Advertisement p adv) as (Hh & Ht & Ho & Hr').
    destruct (update_advertisement_patched st item_id adv _ p Hh Ht Ho Hr')
      as (Hok & _).
    assert (Hsame : patched_Advertisement adv p = adv).
    { unfold patched_Advertisement. simpl.
      rewrite (patched_blank _ _ Th), (patched_blank _ _ Tt). now destruct adv. }
    rewrite Hsame in Hok. rewrite Hok.
    + now rewrite (set_advertisements_id _ _ _ Hrow).
    + repeat split; auto; left; reflexivity.
Qed.

Lemma blank_patch_changes_nothing_witness :
  reserved [("username", JStr ""); ("email", JNull); ("id", JInt 5)] = false
  ∧ UserView.patch db_opel 1
      (Parsed (JDict [("username", JStr ""); ("email", JNull); ("id", JInt 5)]))
    = (success, db_opel)
  ∧ reserved [] = false
  ∧ AdvView.patch db_opel 1 (Parsed (JDict [])) = (success, db_opel).
Proof.
  assert (H1 : reserved [("username", JStr ""); ("email", JNull); ("id", JInt 5)]
               = false) by reflexivity.
  assert (H2 : reserved [] = false) by reflexivity.
  exact (conj H1
           (conj (proj1 (blank_patch_changes_nothing db_opel 1
                           [("username", JStr ""); ("email", JNull);
                            ("id", JInt 5)] H1)
                    {| username := "user3"; email := "user3@mail.com";
                       password := Some example_hash |} eq_refl I I I)
              (conj H2
                 (proj2 (blank_patch_changes_nothing db_opel 1 [] H2)
                    {| header := "Opel Astra J"; description := "as new";
                       registration_time := Some noon; owner := Some 1 |}
                    eq_refl I I I I)))).
Defined.

(** ** The life of an advertisement *)

Lemma AdvView_patch_same_origin st adv_id data r st' a adv :
  AdvView.patch st adv_id data = (r, st') →
  advertisements st !! a = Some adv →
  ∃ adv', advertisements st' !! a = Some adv' ∧ same_origin adv adv'.
Proof.
  intros E Ha.
  assert (Hkeep : ∃ adv', advertisements st !! a = Some adv'
                          ∧ same_origin adv adv')
    by (exists adv; repeat split; auto).
  unfold AdvView.patch in E.
  destruct data as [| []]; simplify_eq; try exact Hkeep.
  destruct (validate_PatchAdvertisementSchema d) as [p | errs |] eqn:Hp;
    simplify_eq; try exact Hkeep.
  destruct (get_item _ _ _) as [adv0 | nf] eqn:Hget; simplify_eq;
    try exact Hkeep.
  apply get_item_inl in Hget.
  destruct (set_items_Advertisement p adv0) as (Eh & Et & Eo & Er).
  destruct (update_advertisement_patched st adv_id adv0 _ p Eh Et Eo Er)
    as (_ & Hany).
  destruct (update_advertisement _ _ _ _) as [e st1] eqn:Hupd.
  destruct (Hany _ _ eq_refl)
    as [(-> & _ & _ & row & (_ & _ & Hr & Ho) & ->) | (x & -> & ->)];
    simplify_eq; try exact Hkeep.
  simpl. destruct (decide (a = adv_id)) as [-> | Hne].
  - rewrite table_lookup_insert_eq by eauto using table_lookup_in_int32.
    simplify_eq. eexists; split; [reflexivity |]. split; assumption.
  - rewrite table_lookup_insert_ne by congruence. exact Hkeep.
Qed.

Lemma app_same_origin `{Bcrypt} req st r st' a adv :
  app req st = (r, st') →
  advertisements st !! a = Some adv →
  (a < advertisements_id_seq st →
   advertisements st' !! a = None
   ∨ ∃ adv', advertisements st' !! a = Some adv' ∧ same_origin adv adv').
Proof.
  intros E Ha Hlt.
  assert (Hkeep : ∃ adv', advertisements st !! a = Some adv'
                          ∧ same_origin adv adv')
    by (exists adv; repeat split; auto).
  pose proof (UserView_advertisements req st) as Hu. rewrite E in Hu.
  destruct req as [i | i b | i | t b | i | i b | i | salt b]; simpl in *;
    try (right; rewrite Hu; exact Hkeep).
  - right. leaves E; exact Hkeep.
  - right. eauto using AdvView_patch_same_origin.
  - leaves E; try (right; exact Hkeep).
    unfold delete_advertisement in *. simplify_eq. simpl.
    destruct (decide (a = i)) as [-> | Hne].
    + left. apply table_lookup_delete_eq.
    + right. rewrite table_lookup_delete_ne by congruence. exact Hkeep.
  - right. unfold AdvView.post in E.
    destruct b as [| []]; simplify_eq; try exact Hkeep.
    destruct (validate_CreateAdvertisementSchema d) as [v | errs |];
      simplify_eq; try exact Hkeep.
    destruct (insert_advertisement t st v) as [[new_id | e] st1] eqn:Hins.
    + apply insert_advertisement_checked in Hins
        as (row & -> & _ & _ & _ & _ & _ & _ & _ & ->).
      simplify_eq. simpl. rewrite table_lookup_insert_ne by lia. exact Hkeep.
    + apply insert_advertisement_inr in Hins as (Hins & _).
      destruct e; simplify_eq; rewrite Hins; exact Hkeep.
Qed.

Lemma effect_stays_absent st st' a :
  effect st st' →
  a < advertisements_id_seq st →
  advertisements st !! a = None →
  advertisements st' !! a = None.
Proof.
  intros Heff Hlt Ha.
  effect_cases Heff; simpl; auto.
  - rewrite table_lookup_insert_ne by lia. exact Ha.
  - rewrite table_lookup_insert_ne by congruence. exact Ha.
  - destruct (decide (adv_id = a)) as [-> | Hne].
    + apply table_lookup_delete_eq.
    + now rewrite table_lookup_delete_ne.
Qed.

(** X11.  In a store whose sequences are ahead of its ids, an advertisement
    keeps its owner and its registration time for as long as it exists,
    whatever requests are made, and once deleted its id is not given to
    another advertisement: after any sequence of requests the id holds no
    row or a row with the same owner and registration time. *)
Theorem advertisement_origin_is_fixed `{Bcrypt} (reqs : list request)
    (st : db) (a : Z) (adv : Advertisement) :
  sequences_ahead st →
  advertisements st !! a = Some adv →
  advertisements (run reqs st) !! a = None
  ∨ ∃ adv', advertisements (run reqs st) !! a = Some adv'
            ∧ same_origin adv adv'.
Proof.
  intros Hseq Ha.
  assert (Hlt : a < advertisements_id_seq st) by (destruct Hseq; eauto).
  assert (Hnow : advertisements st !! a = None
                 ∨ ∃ adv', advertisements st !! a = Some adv'
                           ∧ same_origin adv adv')
    by (right; exists adv; repeat split; auto).
  clear Ha Hseq. revert st Hlt Hnow.
  induction reqs as [| req reqs IH]; intros st Hlt Hnow; [exact Hnow |].
  rewrite run_cons. destruct (app req st) as [r st'] eqn:E. simpl.
  pose proof (app_effect _ _ _ _ E) as Heff.
  apply IH.
  - apply effect_sequences in Heff. lia.
  - destruct Hnow as [Hnone | (adv1 & Hadv1 & Ho & Ht)].
    + left. eauto using effect_stays_absent.
    + destruct (app_same_origin _ _ _ _ _ _ E Hadv1 Hlt)
        as [Hnone | (adv2 & Hadv2 & Ho2 & Ht2)]; [now left | right].
      exists adv2. repeat split; congruence.
Qed.

Lemma advertisement_origin_is_fixed_witness :
  let reqs :=
    [PATCH_advertisement 1
       (Parsed (JDict [("header", JStr "Ford Focus 3"); ("description", JStr "sold")]));
     PATCH_advertisement 1 (Parsed (JDict [("owner", JStr "2")]));
     POST_user "salt" (Parsed (JDict [("username", JStr "user4");
                                      ("email", JStr "user4@mail.com");
                                      ("password", JStr "1")]))] in
  advertisements (run reqs db_opel) !! 1 = None
  ∨ ∃ adv', advertisements (run reqs db_opel) !! 1 = Some adv'
            ∧ same_origin
                {| header := "Opel Astra J"; description := "as new";
                   registration_time := Some noon; owner := Some 1 |} adv'.
Proof.
  cbv zeta.
  refine (advertisement_origin_is_fixed _ db_opel 1 _ _ eq_refl).
  split; intros i x Hi;
    apply table_lookup_singleton_Some in Hi as (<- & _); reflexivity.
Defined.

(** ** Conversions of the owner *)

(** X13.  The owner of a new advertisement may be sent as text: a body
    whose owner is a string of at most 4300 characters that [int()] reads
    as [n] is handled exactly as the body with the integer [n] in its
    place (client.py sends "6"), when the two bodies agree on the other
    fields and on having a member named [__pydantic_self__]. *)
Theorem owner_text_is_converted (now : datetime) (st : db)
    (d d' : list (string * json)) (s : string) (n : Z) :
  reserved d' = reserved d →
  dict_get "header" d' = dict_get "header" d →
  dict_get "description" d' = dict_get "description" d →
  dict_get "owner" d = Some (JStr s) →
  (String.length s ≤ max_str_int)%nat →
  int_of_str s = Some n →
  dict_get "owner" d' = Some (JInt n) →
  AdvView.post now st (Parsed (JDict d)) = AdvView.post now st (Parsed (JDict d')).
Proof.
  intros Hr Hh Ht Ho Hlen Hs Ho'.
  unfold AdvView.post, validate_CreateAdvertisementSchema, instantiate,
    fields_CreateAdvertisementSchema, required.
  rewrite Hr, Hh, Ht, Ho, Ho'. unfold int_validator.
  apply Nat.ltb_ge in Hlen. now rewrite Hlen, Hs.
Qed.

Lemma owner_text_is_converted_witness :
  AdvView.post noon db_user3
    (Parsed (JDict [("header", JStr "Opel Astra J"); ("description", JStr "as new");
                    ("owner", JStr " 1 ")]))
  = AdvView.post noon db_user3 (Parsed (JDict opel)).
Proof.
  refine (owner_text_is_converted noon db_user3
            [("header", JStr "Opel Astra J"); ("description", JStr "as new");
             ("owner", JStr " 1 ")] opel " 1 " 1
            eq_refl eq_refl eq_refl eq_refl _ eq_refl eq_refl).
  unfold max_str_int. simpl. lia.
Defined.

(** ** GET on the stores that can be reached *)

Lemma app_timed `{Bcrypt} req st r st' :
  app req st = (r, st') → timed st → timed st'.
Proof.
  intros E Ht.
  pose proof (UserView_advertisements req st) as Hu. rewrite E in Hu.
  unfold timed in *.
  destruct req as [i | i b | i | t b | i | i b | i | salt b]; simpl in *;
    try (rewrite Hu; exact Ht).
  - leaves E; exact Ht.
  - unfold AdvView.patch in E.
    destruct b as [| []]; simplify_eq; try exact Ht.
    destruct (validate_PatchAdvertisementSchema d) as [p | errs |] eqn:Hp;
      simplify_eq; try exact Ht.
    destruct (get_item _ _ _) as [adv0 | nf] eqn:Hget; simplify_eq;
      try exact Ht.
    apply get_item_inl in Hget.
    destruct (set_items_Advertisement p adv0) as (Eh & Et & Eo & Er).
    destruct (update_advertisement_patched st i adv0 _ p Eh Et Eo Er)
      as (_ & Hany).
    destruct (update_advertisement _ _ _ _) as [e st1] eqn:Hupd.
    destruct (Hany _ _ eq_refl)
      as [(-> & _ & _ & row & (_ & _ & Hr & _) & ->) | (x & -> & ->)];
      simplify_eq; try exact Ht.
    simpl. apply table_Forall_insert; [| exact Ht].
    simpl in Hr. rewrite Hr. exact (Ht i adv0 Hget).
  - leaves E; try exact Ht.
    unfold delete_advertisement in *. simplify_eq. simpl.
    now apply table_Forall_delete.
  - unfold AdvView.post in E.
    destruct b as [| []]; simplify_eq; try exact Ht.
    destruct (validate_CreateAdvertisementSchema d) as [v | errs |];
      simplify_eq; try exact Ht.
    destruct (insert_advertisement t st v) as [[new_id | e] st1] eqn:Hins.
    + apply insert_advertisement_checked in Hins
        as (row & -> & _ & _ & _ & _ & Hr & _ & _ & ->).
      simplify_eq. simpl. apply table_Forall_insert; [| exact Ht].
      rewrite Hr. eauto.
    + apply insert_advertisement_inr in Hins as (Hins & _).
      destruct e; simplify_eq; rewrite Hins; exact Ht.
Qed.

Lemma run_timed `{Bcrypt} reqs st : timed st → timed (run reqs st).
Proof.
  revert st. induction reqs as [| req reqs IH]; intros st Ht; [exact Ht |].
  rewrite run_cons. apply IH.
  destruct (app req st) as [r st'] eqn:E. simpl. eauto using app_timed.
Qed.

(** X17.  GET on a store that requests have built: from a store in which
    both tables exist and every advertisement has a registration time (the
    empty tables are such a store), after any sequence of requests, GET on
    any id within the range of the Integer key of either table is answered
    200 or 404 and does not raise; it leaves the store as it is. *)
Theorem get_answers_200_or_404 `{Bcrypt} (reqs : list request) (st0 : db)
    (item_id : Z) :
  timed st0 →
  in_int32 item_id = true →
  let st := run reqs st0 in
  (∃ status data,
     UserView.get st item_id = (json_response status data, st)
     ∧ (status = 200 ∨ status = 404))
  ∧ (∃ status data,
       AdvView.get st item_id = (json_response status data, st)
       ∧ (status = 200 ∨ status = 404)).
Proof.
  intros Ht0 Hin st. split.
  - unfold UserView.get, get_item, bind_Integer. rewrite Hin.
    destruct (users st !! item_id); eexists _, _; split; eauto.
  - assert (Ht : timed st) by (apply run_timed; exact Ht0).
    unfold AdvView.get, get_item, bind_Integer. rewrite Hin.
    destruct (advertisements st !! item_id) as [adv |] eqn:Hadv.
    + destruct (Ht _ _ Hadv) as (t & ->). eexists _, _; split; eauto.
    + eexists _, _; split; eauto.
Qed.

Lemma get_answers_200_or_404_witness :
  timed empty_db
  ∧ in_int32 1 = true
  ∧ (∃ status data,
       UserView.get
         (run [POST_user "salt" (Parsed (JDict user3));
               POST_advertisement noon (Parsed (JDict opel))] empty_db) 1
       = (json_response status data,
          run [POST_user "salt" (Parsed (JDict user3));
               POST_advertisement noon (Parsed (JDict opel))] empty_db)
       ∧ (status = 200 ∨ status = 404))
  ∧ (∃ status data,
       AdvView.get
         (run [POST_user "salt" (Parsed (JDict user3));
               POST_advertisement noon (Parsed (JDict opel))] empty_db) 1
       = (json_response status data,
          run [POST_user "salt" (Parsed (JDict user3));
               POST_advertisement noon (Parsed (JDict opel))] empty_db)
       ∧ (status = 200 ∨ status = 404)).
Proof.
  assert (Ht : timed empty_db) by apply table_Forall_empty.
  assert (Hin : in_int32 1 = true) by reflexivity.
  exact (conj Ht (conj Hin (get_answers_200_or_404 _ empty_db 1 Ht Hin))).
Defined.

(** ** Numbers in a patch *)

Lemma spaceless_pretty_N_char (m : N) (s : string) :
  (m < 10)%N → spaceless (String (pretty_N_char m) s) = spaceless s.
Proof.
  intros Hm.
  assert (m = 0 ∨ m = 1 ∨ m = 2 ∨ m = 3 ∨ m = 4 ∨ m = 5 ∨ m = 6 ∨ m = 7
          ∨ m = 8 ∨ m = 9)%N as Hcases by lia.
  repeat (destruct Hcases as [-> | Hcases]; [reflexivity |]).
  subst m. reflexivity.
Qed.

Lemma spaceless_pretty_N_go (x : N) (s : string) :
  spaceless (pretty_N_go x s) = spaceless s.
Proof.
  revert s. induction (N.lt_wf_0 x) as [x _ IH]; intros s.
  destruct (decide (x = 0)%N) as [-> | Hx]; [now rewrite pretty_N_go_0 |].
  rewrite pretty_N_go_step by lia.
  rewrite IH by (apply N.div_lt; lia).
  apply spaceless_pretty_N_char, N.mod_lt. lia.
Qed.

Lemma pretty_N_go_length (x : N) (s : string) :
  (String.length s ≤ String.length (pretty_N_go x s))%nat.
Proof.
  revert s. induction (N.lt_wf_0 x) as [x _ IH]; intros s.
  destruct (decide (x = 0)%N) as [-> | Hx]; [now rewrite pretty_N_go_0 |].
  rewrite pretty_N_go_step by lia.
  etransitivity; [| apply IH; apply N.div_lt; lia]. simpl. lia.
Qed.

(** [str(n)] is not empty and has no space. *)
Lemma str_of_int_spaceless n : str_of_int n ≠ "" ∧ spaceless (str_of_int n) = true.
Proof.
  assert (Hpos : ∀ p, pretty_N_go (N.pos p) "" ≠ ""
                      ∧ spaceless (pretty_N_go (N.pos p) "") = true).
  { intros p. split; [| now rewrite spaceless_pretty_N_go].
    rewrite pretty_N_go_step by lia. intros E.
    pose proof (pretty_N_go_length (N.pos p `div` 10)
                  (String (pretty_N_char (N.pos p `mod` 10)) "")) as Hlen.
    rewrite E in Hlen. simpl in Hlen. lia. }
  destruct n as [| p | p].
  - split; [discriminate | reflexivity].
  - unfold str_of_int, pretty, pretty_Z, pretty, pretty_positive, pretty, pretty_N.
    rewrite decide_False by discriminate. apply Hpos.
  - unfold str_of_int, pretty, pretty_Z, pretty, pretty_positive, pretty, pretty_N.
    rewrite decide_False by discriminate.
    change ("-" +:+ pretty_N_go (N.pos p) "")
      with (String "-" (pretty_N_go (N.pos p) "")).
    split; [discriminate |]. simpl. apply Hpos.
Qed.

Lemma PatchUserSchema_username_int d p n :
  validate_PatchUserSchema d = Model p →
  dict_get "username" d = Some (JInt n) →
  pu_username p = Some (str_of_int n).
Proof.
  intros E Hn. apply instantiate_Model in E as (_ & E).
  unfold fields_PatchUserSchema, optional in E. rewrite Hn in E.
  simpl in E. repeat case_match; simplify_eq; reflexivity.
Qed.

(** X18.  The emptiness test of PATCH is made after the conversion to text:
    a username sent as a JSON number, 0 included, is not skipped; when the
    PATCH answers success the row holds the decimal text of the number. *)
Theorem patch_number_is_stored_as_text (st st' : db) (user_id : Z)
    (user : User) (d : list (string * json)) (n : Z) :
  users st !! user_id = Some user →
  dict_get "username" d = Some (JInt n) →
  UserView.patch st user_id (Parsed (JDict d)) = (success, st') →
  ∃ user', users st' !! user_id = Some user'
           ∧ username user' = str_of_int n.
Proof.
  intros Hrow Hn E.
  destruct (UserView_patch_success _ _ _ _ _ Hrow E)
    as (p & row & Hp & (Hs & _ & _) & Hrow').
  exists row. split; [exact Hrow' |].
  simpl in Hs. rewrite (PatchUserSchema_username_int _ _ _ Hp Hn) in Hs.
  destruct (str_of_int_spaceless n) as (Hne & Hspaceless).
  destruct (str_of_int n) as [| c s] eqn:Hstr; [congruence |].
  simpl patched in Hs. eauto using stored_spaceless.
Qed.

Lemma patch_number_is_stored_as_text_witness :
  ∃ user',
    users (UserView.patch db_user3 1 (Parsed (JDict [("username", JInt 0)]))).2
    !! 1 = Some user'
    ∧ username user' = str_of_int 0.
Proof.
  refine (patch_number_is_stored_as_text db_user3 _ 1
            {| username := "user3"; email := "user3@mail.com";
               password := Some example_hash |}
            [("username", JInt 0)] 0 eq_refl eq_refl _).
  vm_compute; reflexivity.
Defined.

(** ** Owner and registration time in a patch *)

(** X19.  The two fields that an advertisement patch cannot set: when the
    body passes the patch schema and gives a non-empty owner or a non-empty
    registration_time, PATCH of an existing advertisement raises the
    store's error for a parameter of the wrong type (the schema made the
    value a string, the column is an Integer or a DateTime), whatever else
    the body holds, and the store is as before. *)
Theorem patch_of_owner_or_time_raises (st : db) (adv_id : Z)
    (adv : Advertisement) (d : list (string * json))
    (p : PatchAdvertisementSchema) :
  advertisements st !! adv_id = Some adv →
  validate_PatchAdvertisementSchema d = Model p →
  truthy (pa_owner p) = true ∨ truthy (pa_registration_time p) = true →
  AdvView.patch st adv_id (Parsed (JDict d)) = (raised DBAPIError, st).
Proof.
  intros Hrow Hp Hset. unfold AdvView.patch.
  rewrite Hp, (get_item_Some _ _ _ _ Hrow).
  destruct (set_items_Advertisement p adv) as (Eh & Et & Eo & Er).
  unfold update_advertisement. rewrite Eo, Er.
  destruct Hset as [To | Tr].
  - rewrite To. destruct (truthy_of_str _ To) as (s & ->).
    rewrite column_int_str. repeat case_match; simplify_eq; reflexivity.
  - rewrite Tr. destruct (truthy_of_str _ Tr) as (s & ->).
    rewrite column_datetime_str. repeat case_match; simplify_eq; reflexivity.
Qed.

Lemma patch_of_owner_or_time_raises_witness :
  AdvView.patch db_opel 1
    (Parsed (JDict [("header", JStr "Ford Focus 3"); ("owner", JStr "1")]))
  = (raised DBAPIError, db_opel).
Proof.
  exact (patch_of_owner_or_time_raises db_opel 1
           {| header := "Opel Astra J"; description := "as new";
              registration_time := Some noon; owner := Some 1 |}
           [("header", JStr "Ford Focus 3"); ("owner", JStr "1")]
           {| pa_header := Some "Ford Focus 3"; pa_description := None;
              pa_owner := Some "1"; pa_registration_time := None |}
           eq_refl eq_refl (or_introl eq_refl)).
Defined.
